(** * py-syncrony: the etcd store client and the leader election

    A shallow embedding of [syncrony/etcd.py] (class [Client]) and of
    [syncrony/election.py] (class [Election]), with the properties of the
    specification stated and proved (or refuted) over it.

    Layout:
    - [Py]: the Python values the client passes around, with Python's [==],
      [in] and truthiness;
    - [B64]: the binary64 arithmetic of the retry delay;
    - [Etcd]: [Client.request], [get], [set] and [watch_iter] as functions
      on an explicit world (the answers of the network, the random draws and
      the trace of what the client did);
    - [Election]: the election task as a transition system whose inputs are
      the completions of its blocking calls and the firing of the watchdog,
      and the election with every task that [run] spawns;
    - the theorems, one section per claim. *)

From Stdlib Require Import ZArith Ascii String List Bool Lia.
From Stdlib Require Import Floats.SpecFloat.
From stdpp Require Import base gmap strings list fin_maps.
Import ListNotations.

#[local] Set Warnings "-register-all".
#[local] Open Scope string_scope.
#[local] Open Scope Z_scope.

(* ===================================================================== *)
(** * Python values *)
(* ===================================================================== *)

Module Py.

(** The values that reach the client as arguments: [None], booleans,
    integers and strings.  (Floats are never passed by the election and
    are left out.) *)
Inductive pyval :=
| PyNone
| PyBool (b : bool)
| PyInt (z : Z)
| PyStr (s : string).

(** [bool] is a subclass of [int] in Python: [True == 1], [False == 0]. *)
Definition py_num (v : pyval) : option Z :=
  match v with
  | PyBool b => Some (if b then 1 else 0)
  | PyInt z => Some z
  | _ => None
  end.

(** Python's [a == b]. *)
Definition py_eq (a b : pyval) : bool :=
  match a, b with
  | PyNone, PyNone => true
  | PyStr s, PyStr t => String.eqb s t
  | _, _ =>
      match py_num a, py_num b with
      | Some x, Some y => x =? y
      | _, _ => false
      end
  end.

(** Python's [v in (x1, ..., xn)] on a tuple. *)
Definition py_in (v : pyval) (xs : list pyval) : bool :=
  existsb (py_eq v) xs.

(** Python's truth value, as used by [... if v else ...]. *)
Definition py_truth (v : pyval) : bool :=
  match v with
  | PyNone => false
  | PyBool b => b
  | PyInt z => negb (z =? 0)
  | PyStr s => negb (String.eqb s "")
  end.

(** The integer a boolean equals, and the token etcd expects for it. *)
Definition bool_int (b : bool) : Z := if b then 1 else 0.
Definition bool_token (b : bool) : string := if b then "true" else "false".

(** [isinstance(v, basestring)] *)
Definition is_basestring (v : pyval) : bool :=
  match v with PyStr _ => true | _ => false end.

(** Decoded JSON, as [response.json()] returns it.  Objects are Python
    dicts.  (Non-integer numbers do not occur in the fields the code
    reads and are left out.) *)
Inductive json :=
| JNull
| JBool (b : bool)
| JInt (z : Z)
| JStr (s : string)
| JList (l : list json)
| JDict (d : gmap string json).

End Py.
Export Py.

(* ===================================================================== *)
(** * Binary64 arithmetic of the retry delay *)
(* ===================================================================== *)

Module B64.

(** Python floats are IEEE-754 binary64 numbers.  Every number the retry
    delay computation meets is an integer multiple of [2^-108]:
    [random.random()] returns [k / 2^53], the factor [0.2] is
    [0x1999999999999A / 2^55], and every nonzero intermediate result has
    magnitude at least [2^-56], so its last place is worth at least
    [2^-108].  A float [x] is therefore represented by the integer
    [x * 2^108]. *)
Definition fx := Z.

Definition one : fx := 2 ^ 108.
Definition of_Z (n : Z) : fx := n * one.

(** [n / 2^s] rounded to the nearest integer, ties to the even one. *)
Definition rne_div2 (n s : Z) : Z :=
  let q := n / 2 ^ s in
  let r := n mod 2 ^ s in
  match 2 * r ?= 2 ^ s with
  | Lt => q
  | Gt => q + 1
  | Eq => if Z.even q then q else q + 1
  end.

(** Rounding of a positive number to 53 significant bits. *)
Definition round_pos (n : Z) : Z :=
  let s := Z.log2 n - 52 in
  if s <=? 0 then n else rne_div2 n s * 2 ^ s.

(** Round to nearest, ties to even, with a 53-bit significand.  The
    rounding does not depend on the unit the integer counts. *)
Definition round (n : Z) : Z :=
  match n with
  | Z0 => 0
  | Zpos _ => round_pos n
  | Zneg p => - round_pos (Zpos p)
  end.

Definition fadd (a b : fx) : fx := round (a + b).
Definition fsub (a b : fx) : fx := round (a - b).
(** The exact product counts units of [2^-216]; it is rounded there and
    brought back to units of [2^-108]. *)
Definition fmul (a b : fx) : fx := round (a * b) / one.

(** The float literal [0.2], that is [0x1.999999999999Ap-3]. *)
Definition f0_2 : fx := 0x1999999999999A * 2 ^ 53.

(** The float [k / 2^53] that [random.random()] returns for its 53 random
    bits [k]. *)
Definition of_random_bits (k : Z) : fx := k * 2 ^ 55.

(** The same number in the Standard Library's IEEE-754 model. *)
Definition to_spec (x : fx) : spec_float :=
  binary_normalize 53 1024 x (-108) false.

End B64.

(* ===================================================================== *)
(** * The store client ([syncrony/etcd.py]) *)
(* ===================================================================== *)

Module Etcd.

Import B64.

(** [urljoin]: the arguments joined by a slash. *)
Definition urljoin (args : list string) : string := String.concat "/" args.

(** Exceptions that can leave the client.  [requests.ConnectionError] is
    not among them: [request] catches it. *)
Inductive exn :=
| HTTPError (status : Z)       (* response.raise_for_status() *)
| ValueError                   (* response.json() on a body that is not JSON *)
| EtcdException (response : gmap string json)
| TypeError (msg : string)
| KeyError (key : string).

(** What [requests.request] does on one attempt: it raises
    [requests.ConnectionError], or returns a response with a status code
    and a body ([None]: the body is not JSON; etcd's JSON bodies are
    objects). *)
Inductive reply :=
| ConnectionError
| Response (status : Z) (body : option (gmap string json)).

(** What the client does to the outside. *)
Inductive io :=
| Request (method url : string) (params : option (gmap string pyval))
| Sleep (seconds : fx).

(** The world: the answers the network will give to the next attempts, the
    next results of [random.random()], and what the client did so far. *)
Record world := World {
  replies : list reply;
  draws : list fx;
  trace : list io
}.

(** A call returns, raises, or is still in progress when the world's
    lists end ([Pending]): blocked in an attempt that has no answer yet, or
    in the retry loop. *)
Inductive outcome (A : Type) :=
| Return (a : A)
| Raise (e : exn)
| Pending.
Arguments Return {A} a.
Arguments Raise {A} e.
Arguments Pending {A}.

Definition M (A : Type) : Type := world -> outcome A * world.

Definition ret {A} (a : A) : M A := fun w => (Return a, w).
Definition raise {A} (e : exn) : M A := fun w => (Raise e, w).
Definition bind {A B} (m : M A) (f : A -> M B) : M B :=
  fun w =>
    match m w with
    | (Return a, w') => f a w'
    | (Raise e, w') => (Raise e, w')
    | (Pending, w') => (Pending, w')
    end.

(** The outcome of a call that has ended. *)
Definition ended {A} (r : exn + A) : outcome A :=
  match r with
  | inl e => Raise e
  | inr a => Return a
  end.

(** ** [Client.request] *)

Definition CONNECT_RETRY_INTERVAL : fx := of_Z 5.
Definition CONNECT_RETRY_RANDOM_FACTOR : fx := f0_2.

(** Lines 65-67: [interval += interval * (random.random() * factor*2 - factor)] *)
Definition retry_interval (random : fx) : fx :=
  let interval := CONNECT_RETRY_INTERVAL in
  let factor := CONNECT_RETRY_RANDOM_FACTOR in
  fadd interval (fmul interval (fsub (fmul (fmul random factor) (of_Z 2)) factor)).

(** The same computation in the Standard Library's model of IEEE-754
    binary64 ([prec = 53], [emax = 1024]), to check [B64] against. *)
Definition retry_interval_ieee (random : spec_float) : spec_float :=
  let interval := to_spec CONNECT_RETRY_INTERVAL in
  let factor := to_spec CONNECT_RETRY_RANDOM_FACTOR in
  SFadd 53 1024 interval
    (SFmul 53 1024 interval
       (SFsub 53 1024 (SFmul 53 1024 (SFmul 53 1024 random factor) (to_spec (of_Z 2)))
          factor)).

(** [str.lstrip] of one character. *)
Fixpoint lstrip (c : ascii) (s : string) : string :=
  match s with
  | String a s' => if Ascii.eqb a c then lstrip c s' else s
  | EmptyString => EmptyString
  end.

(** Keyword arguments of [request]: [version] (given as its [str()];
    default [2]), [prefix] (default ['keys']) and [params] (a dict, or
    absent). *)
Record kwargs := Kwargs {
  kw_version : option string;
  kw_prefix : option string;
  kw_params : option (gmap string pyval)
}.

Definition with_params (params : gmap string pyval) : kwargs :=
  {| kw_version := None; kw_prefix := None; kw_params := Some params |}.

(** Lines 41-42: [if v in (True, False): params[k] = 'true' if v else 'false'] *)
Definition lower_bool (v : pyval) : pyval :=
  if py_in v [PyBool true; PyBool false]
  then PyStr (if py_truth v then "true" else "false")
  else v.

(** Lines 56-61, on the response of a reachable server. *)
Definition handle_response (status : Z) (body : option (gmap string json))
  : outcome (gmap string json) :=
  if (400 <=? status) && (status <? 600) then Raise (HTTPError status)
  else match body with
       | None => Raise ValueError
       | Some response =>
           match response !! "errorCode" with
           | Some _ => Raise (EtcdException response)
           | None => Return response
           end
       end.

(** Lines 32-34: [version] and [prefix]; lines 38-43: [params]. *)
Definition version_of (kw : kwargs) : string :=
  "v" +:+ lstrip "v" (default "2" (kw_version kw)).

Definition prefix_of (kw : kwargs) : string := default "keys" (kw_prefix kw).

Definition params_of (kw : kwargs) : option (gmap string pyval) :=
  fmap (M:=option) (fmap (M:=gmap string) lower_bool) (kw_params kw).

(** Lines 47-52: the attempt on one server. *)
Definition attempt (method path : string) (kw : kwargs) (server : string) : io :=
  Request method (urljoin [server; version_of kw; prefix_of kw; path]) (params_of kw).

(** Lines 46-61: one round over the servers.  [None]: the loop over the
    servers ended, every one of them raised [ConnectionError]. *)
Fixpoint try_servers (servers : list string) (method path : string) (kw : kwargs)
    (w : world) : option (outcome (gmap string json)) * world :=
  match servers with
  | [] => (None, w)
  | server :: servers' =>
      match replies w with
      | [] => (Some Pending, w)
      | r :: rs =>
          let w' := {| replies := rs; draws := draws w;
                       trace := trace w ++ [attempt method path kw server] |} in
          match r with
          | ConnectionError => try_servers servers' method path kw w'
          | Response status body => (Some (handle_response status body), w')
          end
      end
  end.

(** Lines 45-69: the rounds.  Every round that fails takes one random
    draw and sleeps; [fuel] bounds the number of rounds the model
    follows. *)
Fixpoint request_rounds (fuel : nat) (servers : list string) (method path : string)
    (kw : kwargs) (w : world) : outcome (gmap string json) * world :=
  match fuel with
  | O => (Pending, w)
  | S fuel' =>
      match try_servers servers method path kw w with
      | (Some o, w') => (o, w')
      | (None, w') =>
          match draws w' with
          | [] => (Pending, w')
          | random :: ds =>
              let w'' := {| replies := replies w'; draws := ds;
                            trace := trace w' ++ [Sleep (retry_interval random)] |} in
              request_rounds fuel' servers method path kw w''
          end
      end
  end.

(** [Client.request] with its keyword arguments, for a client with the
    given servers.  The loop ends, for the model, when the world's draws
    are used up. *)
Definition request (servers : list string) (method path : string) (kw : kwargs)
  : M (gmap string json) :=
  fun w => request_rounds (S (length (draws w))) servers method path kw w.

(** ** [Client.get] *)

(** The docstring of [get]: "wait can be False, True or integer index". *)
Inductive wait_arg :=
| WaitBool (b : bool)
| WaitIndex (index : Z).

Definition wait_val (wait : wait_arg) : pyval :=
  match wait with
  | WaitBool b => PyBool b
  | WaitIndex index => PyInt index
  end.

(** [int(wait)] *)
Definition wait_int (wait : wait_arg) : Z :=
  match wait with
  | WaitBool b => if b then 1 else 0
  | WaitIndex index => index
  end.

(** Lines 73-80: the parameters [get] builds. *)
Definition get_params (recursive sorted : bool) (wait : wait_arg) : gmap string pyval :=
  let params : gmap string pyval :=
    <["wait" := wait_val wait]>
      (<["sorted" := PyBool sorted]> (<["recursive" := PyBool recursive]> ∅)) in
  if negb (py_in (wait_val wait) [PyBool true; PyBool false])
  then <["wait" := PyBool true]> (<["waitIndex" := PyInt (wait_int wait)]> params)
  else params.

Definition get (servers : list string) (path : string)
    (recursive sorted : bool) (wait : wait_arg) : M (gmap string json) :=
  request servers "GET" path (with_params (get_params recursive sorted wait)).

(** ** [Client.set] *)

Definition is_none (v : pyval) : bool :=
  match v with PyNone => true | _ => false end.

(** Lines 92-100: the parameters that [ttl] and [prev_value] give. *)
Definition set_conditions (prev_value ttl : pyval) : gmap string pyval :=
  let params : gmap string pyval := ∅ in
  let params := if negb (is_none ttl) then <["ttl" := ttl]> params else params in
  if py_in prev_value [PyBool true; PyBool false]
  then <["prevExist" := prev_value]> params
  else if is_basestring prev_value
  then <["prevValue" := prev_value]> params
  else if negb (is_none prev_value)
  then <["prevIndex" := prev_value]> params
  else params.

Definition set (servers : list string) (path : string)
    (value prev_value ttl : pyval) : M (gmap string json) :=
  let params := set_conditions prev_value ttl in
  if is_none value then
    if negb (is_none ttl)
    then raise (TypeError "Cannot combine a delete with a ttl")
    else match params !! "prevExist" with
         | Some _ => raise (TypeError "Cannot combine a delete with prev_value = True or False")
         | None => request servers "DELETE" path (with_params params)
         end
  else request servers "PUT" path (with_params (<["value" := value]> params)).

(** ** [Client.watch_iter] *)

(** The generator is suspended either before its first statement or at
    its [yield], holding [result]. *)
Inductive watch_state :=
| WatchStart
| WatchYielded (result : gmap string json).

(** Line 135: [result['node']['modifiedIndex'] + 1] *)
Definition next_index (result : gmap string json) : exn + Z :=
  match result !! "node" with
  | None => inl (KeyError "node")
  | Some (JDict node) =>
      match node !! "modifiedIndex" with
      | None => inl (KeyError "modifiedIndex")
      | Some (JInt i) => inr (i + 1)
      | Some (JBool b) => inr ((if b then 1 else 0) + 1)
      | Some _ => inl (TypeError "unsupported operand type(s) for +")
      end
  | Some _ => inl (TypeError "indices must be integers")
  end.

(** What the generator runs, when it is resumed, before it calls [get]:
    the value of [index] for that call. *)
Definition watch_index (st : watch_state) : exn + wait_arg :=
  match st with
  | WatchStart => inr (WaitBool false)
  | WatchYielded result =>
      match next_index result with
      | inl e => inl e
      | inr index => inr (WaitIndex index)
      end
  end.

(** One demand on the generator: the event it yields and its new state. *)
Definition watch_next (servers : list string) (path : string) (st : watch_state)
  : M (gmap string json * watch_state) :=
  match watch_index st with
  | inl e => raise e
  | inr index =>
      bind (get servers path false false index)
           (fun result => ret (result, WatchYielded result))
  end.

(** The first [n] events of the generator, as a consumer's [for] loop
    draws them. *)
Fixpoint watch_take (n : nat) (servers : list string) (path : string)
    (st : watch_state) : M (list (gmap string json)) :=
  match n with
  | O => ret []
  | S n' =>
      bind (watch_next servers path st)
           (fun yielded =>
              bind (watch_take n' servers path (snd yielded))
                   (fun rest => ret (fst yielded :: rest)))
  end.

(** The values of [index] with which the generator calls [get] while it
    yields [events], one after the other, from state [st]. *)
Fixpoint watch_indices (st : watch_state) (events : list (gmap string json))
  : list wait_arg :=
  match events with
  | [] => []
  | event :: events' =>
      match watch_index st with
      | inr index => index :: watch_indices (WatchYielded event) events'
      | inl _ => []
      end
  end.

(** An answer that [request] returns and after which the generator waits
    from an index: no [errorCode], a modification index [i], and [i + 1]
    neither 0 nor 1. *)
Definition indexed_event (event : gmap string json) : bool :=
  match event !! "errorCode", next_index event with
  | None, inr i => negb (py_in (PyInt i) [PyBool true; PyBool false])
  | _, _ => false
  end.

(** ** [Client.in_order_create], [mkdir], [rmdir] *)

Definition in_order_create (servers : list string) (path : string) (value : pyval)
  : M (gmap string json) :=
  let params : gmap string pyval := {[ "value" := value ]} in
  request servers "POST" path (with_params params).

Definition mkdir (servers : list string) (path : string) (ttl : pyval)
  : M (gmap string json) :=
  let params : gmap string pyval := {[ "dir" := PyBool true ]} in
  let params := if negb (is_none ttl) then <["ttl" := ttl]> params else params in
  request servers "PUT" path (with_params params).

Definition rmdir (servers : list string) (path : string) (recursive : bool)
  : M (gmap string json) :=
  let params : gmap string pyval :=
    <["recursive" := PyBool recursive]> {[ "dir" := PyBool true ]} in
  request servers "DELETE" path (with_params params).

End Etcd.

(* ===================================================================== *)
(** * The election ([syncrony/election.py]) *)
(* ===================================================================== *)

Module Election.

Import Etcd.

(** The attributes of an [Election] object.  [_watchdog] names the green
    thread that [eventlet.spawn_after] returned, if any. *)
Record election := {
  path : string;
  servers : list string;
  ttl : Z;
  interval : Z;
  identifier : string;
  is_leader : bool;
  _watchdog : option nat
}.

(** Lines 21-30 and 32-55: the class attributes and [__init__].
    [uuid4] is the result of [str(uuid.uuid4())]. *)
Definition __init__ (path : string) (servers : option (list string))
    (ttl interval : option Z) (identifier : option string) (uuid4 : string)
  : election :=
  {| path := path;
     servers := default ["http://localhost:4001"] servers;
     ttl := default 15 ttl;
     interval := default 5 interval;
     identifier := match identifier with
                   | Some s => if String.eqb s "" then uuid4 else s
                   | None => uuid4
                   end;
     is_leader := false;
     _watchdog := None |}.

(** The calls in which the election task blocks. *)
Inductive call :=
| CallSet (path : string) (value prev_value ttl : pyval)   (* self.conn.set *)
| CallGet (path : string) (wait : wait_arg)   (* the get of self.conn.watch_iter *)
| CallSleep (seconds : Z).                    (* eventlet.sleep *)

(** The client operation behind a call, on [self.conn]. *)
Definition store_call (self : election) (c : call) : option (M (gmap string json)) :=
  match c with
  | CallSet path value prev_value ttl => Some (set (servers self) path value prev_value ttl)
  | CallGet path wait => Some (get (servers self) path false false wait)
  | CallSleep _ => None
  end.

(** Where the task [_run] is.  A green thread is true in Python only while
    it has started and has not ended: [_runner] is false in [run]'s test
    [not self._runner] when it is [None] ([NotStarted]) and when the task
    has ended ([Dead]). *)
Inductive pc_t :=
| NotStarted                                  (* _runner is None *)
| InitialWrite                                (* line 65, in _write(False) *)
| Sleeping                                    (* line 69 *)
| RenewWrite                                  (* line 99, in _write(identifier) *)
| WatchGet (index : wait_arg)                 (* line 103, in the generator's get *)
| AcquireWrite (event : gmap string json)     (* line 105, in _write(False) *)
| Dead (e : exn).                             (* an exception left _run: the task has ended *)

(** The election object, its task, and the part of eventlet's hub it
    uses: the timers that are armed (green thread, delay in seconds). *)
Record state := {
  self : election;
  pc : pc_t;
  timers : list (nat * Z);
  spawned : nat;
  calls : list call;
  log : list string
}.

Definition with_self (f : election -> election) (st : state) : state :=
  {| self := f (self st); pc := pc st; timers := timers st;
     spawned := spawned st; calls := calls st; log := log st |}.

Definition set_is_leader (value : bool) (e : election) : election :=
  {| path := path e; servers := servers e; ttl := ttl e; interval := interval e;
     identifier := identifier e; is_leader := value; _watchdog := _watchdog e |}.

Definition set_watchdog (t : option nat) (e : election) : election :=
  {| path := path e; servers := servers e; ttl := ttl e; interval := interval e;
     identifier := identifier e; is_leader := is_leader e; _watchdog := t |}.

Definition with_timers (ts : list (nat * Z)) (st : state) : state :=
  {| self := self st; pc := pc st; timers := ts;
     spawned := spawned st; calls := calls st; log := log st |}.

Definition warning (msg : string) (st : state) : state :=
  {| self := self st; pc := pc st; timers := timers st;
     spawned := spawned st; calls := calls st; log := log st ++ [msg] |}.

(** The task moves on and blocks in [c]. *)
Definition block (p : pc_t) (c : call) (st : state) : state :=
  {| self := self st; pc := p; timers := timers st;
     spawned := spawned st; calls := calls st ++ [c]; log := log st |}.

Definition die (e : exn) (st : state) : state :=
  {| self := self st; pc := Dead e; timers := timers st;
     spawned := spawned st; calls := calls st; log := log st |}.

(** [GreenThread.cancel()]: the timer is disarmed if it has not run. *)
Definition cancel (t : nat) (ts : list (nat * Z)) : list (nat * Z) :=
  List.filter (fun x => negb (Nat.eqb (fst x) t)) ts.

(** [eventlet.spawn_after(seconds, ...)]: arms a timer, returns its
    green thread. *)
Definition spawn_after (seconds : Z) (st : state) : nat * state :=
  (spawned st,
   {| self := self st; pc := pc st; timers := timers st ++ [(spawned st, seconds)];
      spawned := S (spawned st); calls := calls st; log := log st |}).

(** Lines 74-77 *)
Definition _on_watchdog (st : state) : state :=
  with_self (set_is_leader false)
    (warning "Setting is_leader false after {} seconds - is something preventing renewal?" st).

(** Lines 79-87 *)
Definition _set_leader (value : bool) (st : state) : state :=
  let st :=
    match _watchdog (self st) with
    | Some t => with_self (set_watchdog None) (with_timers (cancel t (timers st)) st)
    | None => st
    end in
  let st := with_self (set_is_leader value) st in
  if value then
    let '(t, st) := spawn_after (ttl (self st)) st in
    with_self (set_watchdog (Some t)) st
  else warning "We are no longer the leader!" st.

(** Lines 89-96.  The call [_write] makes, and what its [try] makes of
    the way the call ends. *)
Definition _write_call (self : election) (old : pyval) : call :=
  CallSet (path self) (PyStr (identifier self)) old (PyInt (ttl self)).

Definition _write_result (r : exn + gmap string json) : exn + bool :=
  match r with
  | inr _ => inr true
  | inl (EtcdException _) => inr false
  | inl e => inl e
  end.

(** [_write(old)] as a function on the world. *)
Definition _write (self : election) (old : pyval) : M bool :=
  fun w =>
    match set (servers self) (path self) (PyStr (identifier self)) old (PyInt (ttl self)) w with
    | (Return _, w') => (Return true, w')
    | (Raise (EtcdException _), w') => (Return false, w')
    | (Raise e, w') => (Raise e, w')
    | (Pending, w') => (Pending, w')
    end.

(** Line 103: the generator of [watch_iter] is resumed (or started) and
    runs up to its [get]. *)
Definition demand (ws : watch_state) (st : state) : state :=
  match watch_index ws with
  | inl e => die e st
  | inr index => block (WatchGet index) (CallGet (path (self st)) index) st
  end.

(** Lines 67-72: the head of the loop of [_run], up to the next blocking
    call ([_try_become_leader] starts a new generator). *)
Definition loop (st : state) : state :=
  if is_leader (self st)
  then block Sleeping (CallSleep (interval (self st))) st
  else demand WatchStart st.

(** Line 104: [event['action'] not in ('delete', 'expire')] *)
Definition action_not_free (event : gmap string json) : exn + bool :=
  match event !! "action" with
  | None => inl (KeyError "action")
  | Some (JStr a) => inr (negb (String.eqb a "delete" || String.eqb a "expire"))
  | Some _ => inr true
  end.

(** Lines 65-66: [_write(False)] of [_run] has ended. *)
Definition after_initial_write (r : exn + gmap string json) (st : state) : state :=
  match _write_result r with
  | inl e => die e st
  | inr true => loop (_set_leader true st)
  | inr false => loop st
  end.

(** Lines 98-100: the write of [_renew] has ended. *)
Definition after_renew_write (r : exn + gmap string json) (st : state) : state :=
  match _write_result r with
  | inl e => die e st
  | inr success => loop (_set_leader success st)
  end.

(** Lines 103-105: the [get] of the generator has ended. *)
Definition after_watch_get (r : exn + gmap string json) (st : state) : state :=
  match r with
  | inl e => die e st
  | inr event =>
      match action_not_free event with
      | inl e => die e st
      | inr true => demand (WatchYielded event) st
      | inr false => block (AcquireWrite event) (_write_call (self st) (PyBool false)) st
      end
  end.

(** Lines 105-108: [_write(False)] of [_try_become_leader] has ended. *)
Definition after_acquire_write (event : gmap string json)
    (r : exn + gmap string json) (st : state) : state :=
  match _write_result r with
  | inl e => die e st
  | inr false => demand (WatchYielded event) st
  | inr true => loop (_set_leader true st)
  end.

(** What happens to the election. *)
Inductive event :=
| Run                                   (* election.run() is called; the task it spawns, if any, starts *)
| Wake                                  (* eventlet.sleep returns *)
| Done (r : exn + gmap string json)     (* the store call ends: raises or returns *)
| Fire (t : nat).                       (* the hub runs timer t *)

(** One step of an election with one task: from one suspension of the task
    to the next, or the watchdog's callback.  [None]: the event cannot
    happen in this state.  [run()] spawns a task when there is none or when
    the last one has ended, and [Run] stands for that call together with the
    start of the task it spawned, which runs up to its first write; while
    the task is alive [run()] does nothing.  A [run()] that is called again
    before the spawned task has started spawns another task: [sys_step]
    below has that call and the start of a task as separate events, and any
    number of tasks. *)
Definition step (st : state) (ev : event) : option state :=
  match ev with
  | Run =>
      match pc st with
      | NotStarted | Dead _ =>
          Some (block InitialWrite (_write_call (self st) (PyBool false)) st)
      | _ => Some st
      end
  | Wake =>
      match pc st with
      | Sleeping =>
          Some (block RenewWrite
                  (_write_call (self st) (PyStr (identifier (self st)))) st)
      | _ => None
      end
  | Done r =>
      match pc st with
      | InitialWrite => Some (after_initial_write r st)
      | RenewWrite => Some (after_renew_write r st)
      | WatchGet _ => Some (after_watch_get r st)
      | AcquireWrite event => Some (after_acquire_write event r st)
      | _ => None
      end
  | Fire t =>
      if existsb (fun x => Nat.eqb (fst x) t) (timers st)
      then Some (_on_watchdog (with_timers (cancel t (timers st)) st))
      else None
  end.

(** A run of the election over a sequence of events. *)
Fixpoint run_events (st : state) (evs : list event) : option state :=
  match evs with
  | [] => Some st
  | ev :: evs' =>
      match step st ev with
      | Some st' => run_events st' evs'
      | None => None
      end
  end.

(** The call the task is blocked in, read off its position. *)
Definition blocked_in (st : state) : option call :=
  match pc st with
  | InitialWrite | AcquireWrite _ => Some (_write_call (self st) (PyBool false))
  | RenewWrite => Some (_write_call (self st) (PyStr (identifier (self st))))
  | Sleeping => Some (CallSleep (interval (self st)))
  | WatchGet index => Some (CallGet (path (self st)) index)
  | NotStarted | Dead _ => None
  end.

(** The call the task is blocked in is the last one it made. *)
Definition logged (st : state) : Prop :=
  match blocked_in st with
  | Some c => last (calls st) = Some c
  | None => True
  end.


(** A watch event that carries a modification index, and whose action does
    not say ([ignored]) or says ([freed]) that the lock became free. *)
Definition ignored (event : gmap string json) : bool :=
  match action_not_free event, next_index event with
  | inr true, inr _ => true
  | _, _ => false
  end.

Definition freed (event : gmap string json) : bool :=
  match action_not_free event, next_index event with
  | inr false, inr _ => true
  | _, _ => false
  end.

(** The armed timers once the watchdog of [e] is cancelled. *)
Definition disarmed (e : election) (ts : list (nat * Z)) : list (nat * Z) :=
  match _watchdog e with
  | Some t => cancel t ts
  | None => ts
  end.

(** A new election object, before [run]. *)
Definition start (e : election) : state :=
  {| self := e; pc := NotStarted; timers := []; spawned := O; calls := []; log := [] |}.

(** The election keeps the configuration of [e]. *)
Definition same_config (e e' : election) : Prop :=
  path e' = path e /\ servers e' = servers e /\ ttl e' = ttl e
  /\ interval e' = interval e /\ identifier e' = identifier e.

(** No timer is armed, or one is: the one [_watchdog] names, for [ttl]
    seconds. *)
Definition one_watchdog (st : state) : Prop :=
  timers st = []
  \/ exists t, timers st = [(t, ttl (self st))] /\ _watchdog (self st) = Some t.

(** The positions of a task that has not acquired the lock: before the
    first write ends, and inside [_try_become_leader]. *)
Definition follower_position (p : pc_t) : bool :=
  match p with
  | NotStarted | InitialWrite | WatchGet _ | AcquireWrite _ => true
  | Sleeping | RenewWrite | Dead _ => false
  end.

(** A call of the election [e]: a write of its identifier to its path
    with its lease, under the precondition that the key is absent or holds
    the identifier; a [get] on its path; a sleep of its interval. *)
Definition own_call (e : election) (c : call) : Prop :=
  match c with
  | CallSet p value prev_value lease =>
      p = path e /\ value = PyStr (identifier e) /\ lease = PyInt (ttl e)
      /\ (prev_value = PyBool false \/ prev_value = PyStr (identifier e))
  | CallGet p _ => p = path e
  | CallSleep seconds => seconds = interval e
  end.

(** What every run from a new election keeps, at every position of the
    task ([kept]) and with the position ([run_invariant]). *)
Definition kept (e : election) (st : state) : Prop :=
  same_config e (self st)
  /\ one_watchdog st
  /\ (is_leader (self st) = true -> timers st <> [])
  /\ Forall (own_call e) (calls st).

Definition run_invariant (e : election) (st : state) : Prop :=
  kept e st
  /\ (follower_position (pc st) = true -> is_leader (self st) = false).

(** ** Several tasks of one election

    [eventlet.spawn] returns a green thread that has not started: it starts
    when the caller next yields to the hub.  Until then [not self._runner]
    (line 61) is still true, so that [run()], called again, spawns another
    task; every task spawned runs [_run] on the same election object. *)

Definition with_pc (p : pc_t) (st : state) : state :=
  {| self := self st; pc := p; timers := timers st;
     spawned := spawned st; calls := calls st; log := log st |}.

(** The truth value of a green thread: true while it has started and has
    not ended. *)
Definition active (p : pc_t) : bool :=
  match p with
  | NotStarted | Dead _ => false
  | _ => true
  end.

(** The election object and the hub ([shared]; its own position is not
    used), the position of every task spawned so far, in the order of
    spawning ([NotStarted]: spawned, not started yet), and the task that
    [_runner] names. *)
Record system := {
  shared : state;
  tasks : list pc_t;
  _runner : option nat
}.

(** Line 61: [not self._runner] *)
Definition not_runner (s : system) : bool :=
  match _runner s with
  | None => true
  | Some i =>
      match tasks s !! i with
      | Some p => negb (active p)
      | None => true
      end
  end.

(** Lines 60-62 *)
Definition run (s : system) : system :=
  if not_runner s
  then {| shared := shared s; tasks := tasks s ++ [NotStarted];
          _runner := Some (length (tasks s)) |}
  else s.

(** Task [i] takes the step [ev] of [_run], on the shared object. *)
Definition task_step (i : nat) (ev : event) (s : system) : option system :=
  match tasks s !! i with
  | None => None
  | Some p =>
      match step (with_pc p (shared s)) ev with
      | None => None
      | Some st' =>
          Some {| shared := with_pc (pc (shared s)) st';
                  tasks := <[i := pc st']> (tasks s);
                  _runner := _runner s |}
      end
  end.

(** What happens to an election with any number of tasks. *)
Inductive sys_event :=
| CallRun                                           (* election.run() is called *)
| Start (i : nat)                                   (* the hub starts task i *)
| TaskWake (i : nat)                                (* the sleep of task i returns *)
| TaskDone (i : nat) (r : exn + gmap string json)   (* the store call of task i ends *)
| TimerFire (t : nat).                              (* the hub runs timer t *)

Definition sys_step (s : system) (ev : sys_event) : option system :=
  match ev with
  | CallRun => Some (run s)
  | Start i =>
      match tasks s !! i with
      | Some NotStarted => task_step i Run s
      | _ => None
      end
  | TaskWake i => task_step i Wake s
  | TaskDone i r => task_step i (Done r) s
  | TimerFire t =>
      match step (shared s) (Fire t) with
      | Some st' => Some {| shared := st'; tasks := tasks s; _runner := _runner s |}
      | None => None
      end
  end.

Fixpoint sys_run (s : system) (evs : list sys_event) : option system :=
  match evs with
  | [] => Some s
  | ev :: evs' =>
      match sys_step s ev with
      | Some s' => sys_run s' evs'
      | None => None
      end
  end.

(** A new election object, before [run]: no task. *)
Definition new_system (e : election) : system :=
  {| shared := start e; tasks := []; _runner := None |}.

(** [st] is the system [s] seen as an election with one task: the task is
    the one [_runner] names, and every other task has ended. *)
Definition one_task (s : system) (st : state) : Prop :=
  with_pc (pc st) (shared s) = st
  /\ match _runner s with
     | None => tasks s = [] /\ pc st = NotStarted
     | Some i =>
         tasks s !! i = Some (pc st) /\ pc st <> NotStarted
         /\ forall j p, j <> i -> tasks s !! j = Some p -> exists x, p = Dead x
     end.

(** The events of the system that an event of the election with one task
    stands for: after [run()] the caller yields, so that the task spawned
    starts before [run()] is called again. *)
Definition as_sys_events (s : system) (ev : event) : list sys_event :=
  match ev with
  | Run => if not_runner s then [CallRun; Start (length (tasks s))] else [CallRun]
  | Wake => [TaskWake (default O (_runner s))]
  | Done r => [TaskDone (default O (_runner s)) r]
  | Fire t => [TimerFire t]
  end.

End Election.

(* ===================================================================== *)
(** * Answers of the store used in the examples *)
(* ===================================================================== *)

Module Sample.

(** The answer etcd gives when a compare-and-swap precondition fails. *)
Definition compare_failed : gmap string json :=
  {[ "errorCode" := JInt 101; "message" := JStr "Compare failed";
     "cause" := JStr "[me != other]"; "index" := JInt 8 ]}.

(** The answer etcd gives to a read of a key that does not exist. *)
Definition key_not_found : gmap string json :=
  {[ "errorCode" := JInt 100; "message" := JStr "Key not found";
     "cause" := JStr "/lock"; "index" := JInt 8 ]}.

(** An event whose modification index is 0. *)
Definition event_index_0 : gmap string json :=
  {[ "action" := JStr "set";
     "node" := JDict {[ "key" := JStr "/lock"; "value" := JStr "other";
                        "modifiedIndex" := JInt 0; "createdIndex" := JInt 0 ]} ]}.

End Sample.

(* ===================================================================== *)
(** * Properties of the store client *)
(* ===================================================================== *)

Import Etcd Sample.

Section Request.

Variables (method path : string) (kw : kwargs).

(** Servers that raise [ConnectionError] are passed over: the round goes
    on with the servers after them, having recorded one attempt each. *)
Lemma try_servers_unreachable (before after : list string) rs ds tr :
  try_servers (before ++ after) method path kw
    {| replies := replicate (length before) ConnectionError ++ rs;
       draws := ds; trace := tr |}
  = try_servers after method path kw
      {| replies := rs; draws := ds;
         trace := tr ++ map (attempt method path kw) before |}.
Proof.
  revert tr; induction before as [|s before IH]; intros tr; simpl.
  - by rewrite app_nil_r.
  - rewrite IH. by rewrite <- app_assoc.
Qed.

(** The first server that answers decides the call. *)
Lemma request_first_answer (before after : list string) server status body rs ds tr :
  request (before ++ server :: after) method path kw
    {| replies := replicate (length before) ConnectionError ++ Response status body :: rs;
       draws := ds; trace := tr |}
  = (handle_response status body,
     {| replies := rs; draws := ds;
        trace := tr ++ map (attempt method path kw) (before ++ [server]) |}).
Proof.
  unfold request; cbn [request_rounds draws].
  rewrite try_servers_unreachable; cbn.
  by rewrite map_app, app_assoc.
Qed.

Lemma request_first_server (servers : list string) server status body rs ds tr :
  request (server :: servers) method path kw
    {| replies := Response status body :: rs; draws := ds; trace := tr |}
  = (handle_response status body,
     {| replies := rs; draws := ds; trace := tr ++ [attempt method path kw server] |}).
Proof. exact (request_first_answer [] servers server status body rs ds tr). Qed.

End Request.

Lemma handle_response_http_error status body :
  400 <= status < 600 -> handle_response status body = Raise (HTTPError status).
Proof.
  intros [H1 H2]. unfold handle_response.
  apply Z.leb_le in H1. apply Z.ltb_lt in H2. by rewrite H1, H2.
Qed.

Lemma handle_response_ok status response :
  ~ (400 <= status < 600) ->
  handle_response status (Some response)
  = match response !! "errorCode" with
    | Some _ => Raise (EtcdException response)
    | None => Return response
    end.
Proof.
  intros H. unfold handle_response.
  destruct (400 <=? status) eqn:H1; destruct (status <? 600) eqn:H2; try reflexivity.
  apply Z.leb_le in H1. apply Z.ltb_lt in H2. lia.
Qed.

(** ** C8: failover within a round, protocol errors are final *)

(** C8.  When the servers before [server] raise a connection error and
    [server] answers, the request has been attempted once against each of
    them in order, in one round (no sleep, no draw), and the answer of
    [server] decides the call: an HTTP error status raises [HTTPError], and a
    JSON body with [errorCode] raises [EtcdException]; in both cases the
    servers after [server] see no attempt and the remaining answers of the
    network are untouched. *)
Theorem C8_failover_then_protocol_error_is_final
    (before after : list string) (server method path : string) (kw : kwargs)
    (status : Z) (body : option (gmap string json)) rs ds tr :
  (400 <= status < 600
   \/ exists response, body = Some response /\ is_Some (response !! "errorCode")) ->
  exists e,
    request (before ++ server :: after) method path kw
      {| replies := replicate (length before) ConnectionError ++ Response status body :: rs;
         draws := ds; trace := tr |}
    = (Raise e,
       {| replies := rs; draws := ds;
          trace := tr ++ map (attempt method path kw) (before ++ [server]) |})
    /\ (400 <= status < 600 -> e = HTTPError status)
    /\ (~ (400 <= status < 600) -> exists response,
          body = Some response /\ e = EtcdException response).
Proof.
  intros H. rewrite request_first_answer.
  destruct (decide (400 <= status < 600)) as [Hs|Hs].
  - exists (HTTPError status). rewrite handle_response_http_error by done.
    split; [done|]. split; [done|]. intros; contradiction.
  - destruct H as [H|(response & -> & [code Hcode])]; [contradiction|].
    exists (EtcdException response). rewrite handle_response_ok by done.
    rewrite Hcode. split; [done|]. split; [intros; contradiction|].
    intros _. by exists response.
Qed.

Lemma C8_witness :
  exists e,
    request (["http://a"; "http://b"] ++ "http://c" :: ["http://d"]) "PUT" "lock"
      (with_params {[ "value" := PyStr "me" ]})
      {| replies := replicate 2 ConnectionError
                    ++ Response 200 (Some {[ "errorCode" := JInt 101 ]}) :: [ConnectionError];
         draws := []; trace := [] |}
    = (Raise e,
       {| replies := [ConnectionError]; draws := [];
          trace := [] ++ map (attempt "PUT" "lock" (with_params {[ "value" := PyStr "me" ]}))
                          (["http://a"; "http://b"] ++ ["http://c"]) |})
    /\ (400 <= 200 < 600 -> e = HTTPError 200)
    /\ (~ (400 <= 200 < 600) -> exists response,
          Some {[ "errorCode" := JInt 101 ]} = Some response /\ e = EtcdException response).
Proof.
  apply (C8_failover_then_protocol_error_is_final
           ["http://a"; "http://b"] ["http://d"] "http://c" "PUT" "lock"
           (with_params {[ "value" := PyStr "me" ]}) 200
           (Some {[ "errorCode" := JInt 101 ]}) [ConnectionError] [] []).
  right. exists {[ "errorCode" := JInt 101 ]}. split; [reflexivity|].
  exists (JInt 101). reflexivity.
Defined.

(** ** C7: a delete with a lease or an existence precondition fails fast *)

Lemma set_conditions_prevExist prev_value :
  py_in prev_value [PyBool true; PyBool false] = true ->
  set_conditions prev_value PyNone !! "prevExist" = Some prev_value.
Proof.
  intros H. unfold set_conditions; cbn [is_none negb]. rewrite H.
  apply lookup_insert_eq.
Qed.

(** C7.  [set] with [value = None] and a [ttl], or with [prev_value] one of
    [True] and [False], raises [TypeError] and leaves the world as it was: no
    request is recorded and no answer of the network is consumed. *)
Theorem C7_delete_with_lease_or_existence_precondition_raises_before_io
    (servers : list string) (path : string) (prev_value ttl : pyval) (w : world) :
  is_none ttl = false \/ py_in prev_value [PyBool true; PyBool false] = true ->
  exists msg, set servers path PyNone prev_value ttl w = (Raise (TypeError msg), w).
Proof.
  intros H. unfold set; cbn [is_none].
  destruct (is_none ttl) eqn:Httl; cbn [negb].
  - destruct H as [H|H]; [discriminate|].
    destruct ttl; try discriminate.
    rewrite (set_conditions_prevExist _ H). by eexists.
  - by eexists.
Qed.

Lemma C7_witness :
  (exists msg, set ["http://localhost:4001"] "lock" PyNone PyNone (PyInt 15)
                 {| replies := [Response 200 (Some ∅)]; draws := []; trace := [] |}
               = (Raise (TypeError msg),
                  {| replies := [Response 200 (Some ∅)]; draws := []; trace := [] |}))
  /\ (exists msg, set ["http://localhost:4001"] "lock" PyNone (PyBool false) PyNone
                    {| replies := [Response 200 (Some ∅)]; draws := []; trace := [] |}
                  = (Raise (TypeError msg),
                     {| replies := [Response 200 (Some ∅)]; draws := []; trace := [] |})).
Proof.
  split.
  - apply (C7_delete_with_lease_or_existence_precondition_raises_before_io
             ["http://localhost:4001"] "lock" PyNone (PyInt 15)).
    left; reflexivity.
  - apply (C7_delete_with_lease_or_existence_precondition_raises_before_io
             ["http://localhost:4001"] "lock" (PyBool false) PyNone).
    right; reflexivity.
Defined.

(** ** C10: the integers 0 and 1 are taken for booleans *)

(** [request] looks at its keyword arguments only through the attempts it
    makes. *)
Lemma try_servers_kw servers method path kw kw' w :
  (forall server, attempt method path kw server = attempt method path kw' server) ->
  try_servers servers method path kw w = try_servers servers method path kw' w.
Proof.
  intros H. revert w; induction servers as [|s servers IH]; intros w; simpl; [done|].
  destruct (replies w) as [|[|status body] rs]; [done| |]; rewrite H; [apply IH|done].
Qed.

Lemma request_kw servers method path kw kw' w :
  version_of kw = version_of kw' -> prefix_of kw = prefix_of kw' ->
  params_of kw = params_of kw' ->
  request servers method path kw w = request servers method path kw' w.
Proof.
  intros Hv Hp Hq. unfold request.
  assert (Ha : forall server, attempt method path kw server = attempt method path kw' server)
    by (intros; unfold attempt; by rewrite Hv, Hp, Hq).
  generalize (S (length (draws w))) as fuel.
  intros fuel; revert w; induction fuel as [|fuel IH]; intros w; simpl; [done|].
  rewrite (try_servers_kw _ _ _ kw kw') by done.
  destruct (try_servers servers method path kw' w) as [[o|] w']; [done|].
  destruct (draws w'); [done|]. apply IH.
Qed.

Lemma lower_bool_int b : lower_bool (PyInt (bool_int b)) = PyStr (bool_token b).
Proof. by destruct b. Qed.

Lemma lower_bool_bool b : lower_bool (PyBool b) = PyStr (bool_token b).
Proof. by destruct b. Qed.

Lemma set_conditions_int_lowered b ttl :
  lower_bool <$> set_conditions (PyInt (bool_int b)) ttl
  = lower_bool <$> set_conditions (PyBool b) ttl.
Proof.
  unfold set_conditions.
  replace (py_in (PyInt (bool_int b)) [PyBool true; PyBool false]) with true
    by (by destruct b).
  replace (py_in (PyBool b) [PyBool true; PyBool false]) with true by (by destruct b).
  by rewrite !fmap_insert, lower_bool_int, lower_bool_bool.
Qed.

(** C10.  For [b] a boolean and [i] the integer 0 or 1 that equals it in
    Python: (1) [set] with [prev_value = i] is [set] with [prev_value = b],
    and what it puts in a write is [prevExist] with the token of [b] and no
    [prevIndex]; (2) [get] with [wait = i] is [get] with [wait = b]: its
    parameters carry [wait] as the token of [b] and no [waitIndex]; (3)
    [request] sends any parameter bound to [i] as the token of [b]. *)
Theorem C10_integers_0_and_1_are_treated_as_booleans (b : bool) :
  (forall servers path value ttl w,
      set servers path value (PyInt (bool_int b)) ttl w
      = set servers path value (PyBool b) ttl w)
  /\ (forall value ttl,
        let sent := lower_bool <$> <["value" := value]> (set_conditions (PyInt (bool_int b)) ttl) in
        sent !! "prevExist" = Some (PyStr (bool_token b)) /\ sent !! "prevIndex" = None)
  /\ (forall servers path recursive sorted w,
        get servers path recursive sorted (WaitIndex (bool_int b)) w
        = get servers path recursive sorted (WaitBool b) w)
  /\ (forall recursive sorted,
        let sent := lower_bool <$> get_params recursive sorted (WaitIndex (bool_int b)) in
        sent !! "wait" = Some (PyStr (bool_token b)) /\ sent !! "waitIndex" = None)
  /\ (forall (params : gmap string pyval) k,
        params_of (with_params (<[k := PyInt (bool_int b)]> params))
        = Some (<[k := PyStr (bool_token b)]> (lower_bool <$> params))).
Proof.
  repeat split.
  - intros. unfold set.
    assert (Hx : set_conditions (PyInt (bool_int b)) ttl !! "prevExist"
                 = None <-> set_conditions (PyBool b) ttl !! "prevExist" = None).
    { rewrite <- (fmap_None lower_bool (set_conditions (PyInt _) _ !! _)).
      rewrite <- (fmap_None lower_bool (set_conditions (PyBool _) _ !! _)).
      by rewrite <- !lookup_fmap, set_conditions_int_lowered. }
    destruct (is_none value); [destruct (negb (is_none ttl)); [done|]|].
    + destruct (set_conditions (PyInt (bool_int b)) ttl !! "prevExist") eqn:E1;
        destruct (set_conditions (PyBool b) ttl !! "prevExist") eqn:E2; try done.
      * destruct Hx as [_ Hx]. by specialize (Hx eq_refl).
      * destruct Hx as [Hx _]. by specialize (Hx eq_refl).
      * apply request_kw; try done. unfold params_of; cbn.
        by rewrite set_conditions_int_lowered.
    + apply request_kw; try done. unfold params_of; cbn.
      by rewrite !fmap_insert, set_conditions_int_lowered.
  - unfold set_conditions.
    replace (py_in (PyInt (bool_int b)) [PyBool true; PyBool false]) with true
      by (by destruct b).
    rewrite !fmap_insert, lower_bool_int.
    rewrite lookup_insert_ne by done. apply lookup_insert_eq.
  - unfold set_conditions.
    replace (py_in (PyInt (bool_int b)) [PyBool true; PyBool false]) with true
      by (by destruct b).
    rewrite lookup_fmap, !lookup_insert_ne by done.
    destruct (negb (is_none ttl)); [rewrite lookup_insert_ne by done|];
      by rewrite lookup_empty.
  - intros. unfold get. apply request_kw; try done.
    unfold params_of, get_params;
      cbn [kw_params with_params wait_val fmap option_fmap option_map].
    replace (py_in (PyInt (bool_int b)) [PyBool true; PyBool false]) with true
      by (by destruct b).
    replace (py_in (PyBool b) [PyBool true; PyBool false]) with true by (by destruct b).
    cbn [negb]. by rewrite !fmap_insert, lower_bool_int, !lower_bool_bool.
  - unfold get_params; cbn [wait_val].
    replace (py_in (PyInt (bool_int b)) [PyBool true; PyBool false]) with true
      by (by destruct b).
    cbn [negb]. rewrite !fmap_insert, lower_bool_int. apply lookup_insert_eq.
  - unfold get_params; cbn [wait_val].
    replace (py_in (PyInt (bool_int b)) [PyBool true; PyBool false]) with true
      by (by destruct b).
    cbn [negb]. by rewrite lookup_fmap, !lookup_insert_ne, lookup_empty by done.
  - intros. unfold params_of; cbn. by rewrite fmap_insert, lower_bool_int.
Qed.

(** ** C6: how [set] reports the answer of the store *)

(** A [set] that passes its argument checks is one [request]. *)
Lemma set_is_request servers path value prev_value ttl :
  is_none value = false
  \/ (is_none ttl = true /\ py_in prev_value [PyBool true; PyBool false] = false) ->
  set servers path value prev_value ttl
  = request servers (if is_none value then "DELETE" else "PUT") path
      (with_params (if is_none value then set_conditions prev_value ttl
                    else <["value" := value]> (set_conditions prev_value ttl))).
Proof.
  intros [H|[Ht Hp]]; unfold set.
  - by rewrite H.
  - destruct (is_none value); [|done].
    rewrite Ht; cbn [negb].
    replace (set_conditions prev_value ttl !! "prevExist") with (@None pyval); [done|].
    unfold set_conditions. rewrite Ht, Hp; cbn [negb].
    destruct (is_basestring prev_value); [done|].
    by destruct (negb (is_none prev_value)).
Qed.

(** C6, as stated, fails: on a well-formed conditional write that the store
    rejects for its precondition, [set] does not return.  With the answer
    under a success status it raises [EtcdException]; with the answer under
    status 412 it raises [HTTPError]. *)
Lemma C6_counterexample_set_raises_on_compare_failed :
  let call := set ["http://localhost:4001"] "lock" (PyStr "me") (PyBool false) (PyInt 15) in
  let answered status :=
    {| replies := [Response status (Some compare_failed)]; draws := []; trace := [] |} in
  fst (call (answered 200)) = Raise (EtcdException compare_failed)
  /\ fst (call (answered 412)) = Raise (HTTPError 412)
  /\ ~ (exists r, fst (call (answered 200)) = Return r)
  /\ ~ (exists r, fst (call (answered 412)) = Return r).
Proof.
  cbv zeta.
  assert (H200 : fst (set ["http://localhost:4001"] "lock" (PyStr "me") (PyBool false) (PyInt 15)
                        {| replies := [Response 200 (Some compare_failed)];
                           draws := []; trace := [] |})
                 = Raise (EtcdException compare_failed)) by (vm_compute; reflexivity).
  assert (H412 : fst (set ["http://localhost:4001"] "lock" (PyStr "me") (PyBool false) (PyInt 15)
                        {| replies := [Response 412 (Some compare_failed)];
                           draws := []; trace := [] |})
                 = Raise (HTTPError 412)) by (vm_compute; reflexivity).
  repeat split; try assumption.
  - intros [r Hr]. rewrite H200 in Hr. discriminate.
  - intros [r Hr]. rewrite H412 in Hr. discriminate.
Qed.

(** ** C4 and C5: the requests of [watch_iter] *)

(** The parameters of the first [get] of the generator: a read that does
    not wait. *)
Lemma watch_first_params :
  params_of (with_params (get_params false false (WaitBool false)))
  = Some {[ "recursive" := PyStr "false"; "sorted" := PyStr "false";
            "wait" := PyStr "false" ]}.
Proof. vm_compute. reflexivity. Qed.

(** After an event with modification index [i], with [i + 1] neither 0 nor
    1, the next [get] waits for the changes from index [i + 1] on. *)
Lemma watch_resumes_after_index (result node : gmap string json) (i : Z) :
  result !! "node" = Some (JDict node) ->
  node !! "modifiedIndex" = Some (JInt i) ->
  i + 1 <> 0 -> i + 1 <> 1 ->
  watch_index (WatchYielded result) = inr (WaitIndex (i + 1))
  /\ exists sent,
      params_of (with_params (get_params false false (WaitIndex (i + 1)))) = Some sent
      /\ sent !! "wait" = Some (PyStr "true")
      /\ sent !! "waitIndex" = Some (PyInt (i + 1)).
Proof.
  intros Hn Hi H0 H1. split.
  - unfold watch_index, next_index. by rewrite Hn, Hi.
  - assert (Hin : py_in (PyInt (i + 1)) [PyBool true; PyBool false] = false).
    { unfold py_in; cbn. apply Z.eqb_neq in H0, H1. by rewrite H0, H1. }
    unfold params_of, get_params;
      cbn [kw_params with_params wait_val wait_int fmap option_fmap option_map].
    rewrite Hin; cbn [negb]. eexists; split; [reflexivity|].
    rewrite !fmap_insert.
    replace (lower_bool (PyInt (i + 1))) with (PyInt (i + 1))
      by (unfold lower_bool; by rewrite Hin).
    split; [apply lookup_insert_eq|].
    rewrite lookup_insert_ne by done. apply lookup_insert_eq.
Qed.

(** C4.  The first demand on the generator sends a read with [wait] false,
    which the store answers at once.  When the key does not exist and the
    store answers "Key not found", the demand raises ([HTTPError] when the
    answer has status 404, [EtcdException] when it has a success status): it
    neither blocks until the key is created nor yields an event. *)
Theorem C4_first_demand_on_missing_key_raises
    (server : string) (servers : list string) (path : string) rs ds tr :
  let immediate_read :=
    Request "GET" (urljoin [server; "v2"; "keys"; path])
      (Some {[ "recursive" := PyStr "false"; "sorted" := PyStr "false";
               "wait" := PyStr "false" ]}) in
  watch_index WatchStart = inr (WaitBool false)
  /\ watch_next (server :: servers) path WatchStart
       {| replies := Response 404 (Some key_not_found) :: rs; draws := ds; trace := tr |}
     = (Raise (HTTPError 404),
        {| replies := rs; draws := ds; trace := tr ++ [immediate_read] |})
  /\ watch_next (server :: servers) path WatchStart
       {| replies := Response 200 (Some key_not_found) :: rs; draws := ds; trace := tr |}
     = (Raise (EtcdException key_not_found),
        {| replies := rs; draws := ds; trace := tr ++ [immediate_read] |}).
Proof.
  cbv zeta. split; [reflexivity|].
  unfold watch_next, bind, get; cbn [watch_index].
  split.
  - rewrite request_first_server. reflexivity.
  - rewrite request_first_server. reflexivity.
Qed.

(** C5.  After the generator has yielded an event with modification index
    0, its next demand calls [get] with [wait = 1], which [get] takes for
    [True]: the request carries [wait] true and no [waitIndex], so it waits
    for the next change from now on instead of the changes from index 1
    on. *)
Theorem C5_after_index_0_next_demand_has_no_waitIndex
    (server : string) (servers : list string) (path : string)
    (status : Z) (body : option (gmap string json)) rs ds tr :
  let plain_wait := {[ "recursive" := PyStr "false"; "sorted" := PyStr "false";
                       "wait" := PyStr "true" ]} : gmap string pyval in
  watch_index (WatchYielded event_index_0) = inr (WaitIndex 1)
  /\ params_of (with_params (get_params false false (WaitIndex 1))) = Some plain_wait
  /\ plain_wait !! "waitIndex" = None
  /\ exists o,
      watch_next (server :: servers) path (WatchYielded event_index_0)
        {| replies := Response status body :: rs; draws := ds; trace := tr |}
      = (o, {| replies := rs; draws := ds;
               trace := tr ++ [Request "GET" (urljoin [server; "v2"; "keys"; path])
                                 (Some plain_wait)] |}).
Proof.
  cbv zeta. split; [vm_compute; reflexivity|].
  split; [vm_compute; reflexivity|]. split; [vm_compute; reflexivity|].
  unfold watch_next, bind, get.
  replace (watch_index (WatchYielded event_index_0)) with (@inr exn _ (WaitIndex 1))
    by (vm_compute; reflexivity).
  rewrite request_first_server.
  destruct (handle_response status body) as [r|e|]; eexists; reflexivity.
Qed.

(* ===================================================================== *)
(** * Properties of the election *)
(* ===================================================================== *)

Import Election.

(** ** What [_set_leader], [loop] and [demand] do to a state *)

Section Transitions.

Variables (e : election) (p : pc_t) (ts : list (nat * Z)) (n : nat)
          (cs : list call) (lg : list string).

Let st : state :=
  {| self := e; pc := p; timers := ts; spawned := n; calls := cs; log := lg |}.

Lemma set_leader_true :
  _set_leader true st
  = {| self := set_watchdog (Some n) (set_is_leader true (set_watchdog None e));
       pc := p; timers := disarmed e ts ++ [(n, ttl e)]; spawned := S n;
       calls := cs; log := lg |}.
Proof. subst st. unfold _set_leader, disarmed; cbn. by destruct (_watchdog e). Qed.

Lemma set_leader_false :
  _set_leader false st
  = {| self := set_is_leader false (set_watchdog None e);
       pc := p; timers := disarmed e ts; spawned := n;
       calls := cs; log := lg ++ ["We are no longer the leader!"] |}.
Proof.
  subst st. unfold _set_leader, disarmed; cbn.
  destruct e as [? ? ? ? ? ? [t|]]; reflexivity.
Qed.

Lemma loop_leader :
  is_leader e = true ->
  loop st = {| self := e; pc := Sleeping; timers := ts; spawned := n;
               calls := cs ++ [CallSleep (interval e)]; log := lg |}.
Proof. intros H. subst st. unfold loop; cbn. by rewrite H. Qed.

Lemma loop_follower :
  is_leader e = false ->
  loop st = {| self := e; pc := WatchGet (WaitBool false); timers := ts; spawned := n;
               calls := cs ++ [CallGet (path e) (WaitBool false)]; log := lg |}.
Proof. intros H. subst st. unfold loop; cbn. by rewrite H. Qed.


End Transitions.

(** [demand], [die] and [block] leave the election object alone. *)
Lemma demand_self ws st : self (demand ws st) = self st.
Proof. unfold demand. by destruct (watch_index ws). Qed.

Lemma loop_self st : self (loop st) = self st.
Proof. unfold loop. destruct (is_leader (self st)); [done|apply demand_self]. Qed.

Lemma write_result_true r : _write_result r = inr true -> exists response, r = inr response.
Proof. destruct r as [[]|response]; try discriminate. by exists response. Qed.

Lemma write_result_false r :
  _write_result r = inr false -> exists response, r = inl (EtcdException response).
Proof. destruct r as [[]|]; try discriminate. by eexists. Qed.

(** The steps of the election take the way a store call ended as their
    input; [_write], run on a world, is [set] run on that world followed by
    [_write_result]. *)
Lemma write_is_store_call_then_result (e : election) (old : pyval) (w : world) :
  store_call e (_write_call e old)
  = Some (set (servers e) (path e) (PyStr (identifier e)) old (PyInt (ttl e)))
  /\ _write e old w
     = match set (servers e) (path e) (PyStr (identifier e)) old (PyInt (ttl e)) w with
       | (Return response, w') => (ended (_write_result (inr response)), w')
       | (Raise x, w') => (ended (_write_result (inl x)), w')
       | (Pending, w') => (Pending, w')
       end.
Proof.
  split; [reflexivity|]. unfold _write.
  destruct (set _ _ _ _ _ w) as [[response|x|] w']; try reflexivity.
  by destruct x.
Qed.

(** Along every run, the position of the task and the log of its calls
    agree. *)
Lemma logged_block p c st :
  blocked_in (block p c st) = Some c -> logged (block p c st).
Proof. intros H. unfold logged. rewrite H. apply last_snoc. Qed.

Lemma logged_demand ws st : logged (demand ws st).
Proof.
  unfold demand. destruct (watch_index ws) as [x|index]; [exact I|].
  by apply logged_block.
Qed.

Lemma logged_loop st : logged (loop st).
Proof.
  unfold loop. destruct (is_leader (self st)); [by apply logged_block|].
  apply logged_demand.
Qed.

Lemma step_logged st ev st' : step st ev = Some st' -> logged st -> logged st'.
Proof.
  unfold step. intros Hstep Hst. destruct ev as [| |r|t].
  - destruct (pc st) eqn:Hpc; injection Hstep as <-; try done;
      by apply logged_block.
  - destruct (pc st); try discriminate. injection Hstep as <-. by apply logged_block.
  - destruct (pc st); try discriminate; injection Hstep as <-.
    + unfold after_initial_write.
      destruct (_write_result r) as [x|[|]]; [exact I|apply logged_loop..].
    + unfold after_renew_write.
      destruct (_write_result r) as [x|success]; [exact I|apply logged_loop].
    + unfold after_watch_get. destruct r as [x|event]; [exact I|].
      destruct (action_not_free event) as [x|[|]];
        [exact I|apply logged_demand|by apply logged_block].
    + unfold after_acquire_write.
      destruct (_write_result r) as [x|[|]];
        [exact I|apply logged_loop|apply logged_demand].
  - destruct (existsb _ (timers st)); [|discriminate]. injection Hstep as <-.
    destruct st as [e p ts n cs lg]. by destruct p.
Qed.

Lemma run_logged (e : election) evs st :
  run_events (start e) evs = Some st -> logged st.
Proof.
  assert (H : forall st0, logged st0 -> run_events st0 evs = Some st -> logged st).
  { induction evs as [|ev evs IH]; intros st0 H0 Hrun; cbn in Hrun.
    - by injection Hrun as <-.
    - destruct (step st0 ev) as [st1|] eqn:Hstep; [|discriminate].
      eapply IH; [|exact Hrun]. by eapply step_logged. }
  apply H. exact I.
Qed.

(** ** C1: when [is_leader] changes *)

(** C1.  [is_leader] is [False] in a new [Election].  In any step of the
    election, from any state: if [is_leader] goes from [False] to [True], the
    step is the return of a [set] the task was blocked in, which wrote the
    identifier with [prev_value] either [False] (the write of [_run] or of
    [_try_become_leader]) or the identifier itself (the write of [_renew]);
    if it goes from [True] to [False], the step is either the watchdog timer
    firing or the write of [_renew] ending in [EtcdException].  (The class
    defines no [cancel] method, so no step cancels.) *)
Theorem C1_is_leader_lifecycle :
  (forall path servers ttl interval identifier uuid4,
      is_leader (__init__ path servers ttl interval identifier uuid4) = false)
  /\ (forall st ev st',
        step st ev = Some st' ->
        (is_leader (self st) = false -> is_leader (self st') = true ->
         exists response old,
           ev = Done (inr response)
           /\ blocked_in st
              = Some (CallSet (path (self st)) (PyStr (identifier (self st))) old
                        (PyInt (ttl (self st))))
           /\ (old = PyBool false \/ old = PyStr (identifier (self st))))
        /\ (is_leader (self st) = true -> is_leader (self st') = false ->
            (exists t, ev = Fire t /\ In t (map fst (timers st)))
            \/ (exists response,
                   ev = Done (inl (EtcdException response)) /\ pc st = RenewWrite))).
Proof.
  split; [reflexivity|].
  intros [e p ts n cs lg] ev st' Hstep.
  unfold step in Hstep; cbn [pc timers self] in Hstep.
  destruct ev as [| |r|t].
  - (* Run *)
    destruct p; injection Hstep as <-; split; cbn; congruence.
  - (* Wake *)
    destruct p; try discriminate; injection Hstep as <-; split; cbn; congruence.
  - (* Done *)
    destruct p; try discriminate; injection Hstep as <-.
    + (* InitialWrite *)
      unfold after_initial_write.
      destruct (_write_result r) as [x|[|]] eqn:Hr.
      * split; cbn; congruence.
      * apply write_result_true in Hr as [response ->].
        split; intros H1 H2.
        -- exists response, (PyBool false). cbn; auto.
        -- rewrite loop_self, set_leader_true in H2. cbn in H2. discriminate.
      * rewrite loop_self. split; cbn; congruence.
    + (* RenewWrite *)
      unfold after_renew_write.
      destruct (_write_result r) as [x|[|]] eqn:Hr.
      * split; cbn; congruence.
      * apply write_result_true in Hr as [response ->].
        split; intros H1 H2.
        -- exists response, (PyStr (identifier e)). cbn; auto.
        -- rewrite loop_self, set_leader_true in H2. cbn in H2. discriminate.
      * apply write_result_false in Hr as [response ->].
        split; intros H1 H2.
        -- rewrite loop_self, set_leader_false in H2. cbn in H2. discriminate.
        -- right. by exists response.
    + (* WatchGet *)
      unfold after_watch_get.
      destruct r as [x|event]; [split; cbn; congruence|].
      destruct (action_not_free event) as [x|[|]];
        try rewrite demand_self; split; cbn; congruence.
    + (* AcquireWrite *)
      unfold after_acquire_write.
      destruct (_write_result r) as [x|[|]] eqn:Hr.
      * split; cbn; congruence.
      * apply write_result_true in Hr as [response ->].
        split; intros H1 H2.
        -- exists response, (PyBool false). cbn; auto.
        -- rewrite loop_self, set_leader_true in H2. cbn in H2. discriminate.
      * rewrite demand_self. split; cbn; congruence.
  - (* Fire *)
    destruct (existsb _ ts) eqn:Hts; [|discriminate].
    injection Hstep as <-. split; cbn; intros H1 H2; [congruence|].
    left. exists t. split; [done|].
    apply existsb_exists in Hts as ([t' s] & Hin & Heq).
    apply Nat.eqb_eq in Heq; cbn in Heq; subst t'.
    apply in_map_iff. by exists (t, s).
Qed.

Lemma C1_witness :
  let e := __init__ "lock" None None None (Some "me") "6f1c" in
  let acquiring :=
    {| self := e; pc := InitialWrite; timers := []; spawned := 0%nat;
       calls := [_write_call e (PyBool false)]; log := [] |} in
  let leading :=
    {| self := set_watchdog (Some 0%nat) (set_is_leader true e); pc := Sleeping;
       timers := [(0%nat, 15)]; spawned := 1%nat;
       calls := [_write_call e (PyBool false); CallSleep 5]; log := [] |} in
  (exists response old,
      Done (inr ∅) = Done (inr response)
      /\ blocked_in acquiring
         = Some (CallSet (path (self acquiring)) (PyStr (identifier (self acquiring))) old
                   (PyInt (ttl (self acquiring))))
      /\ (old = PyBool false \/ old = PyStr (identifier (self acquiring))))
  /\ ((exists t, Fire 0%nat = Fire t /\ In t (map fst (timers leading)))
      \/ (exists response,
             Fire 0%nat = Done (inl (EtcdException response)) /\ pc leading = RenewWrite)).
Proof.
  intros e acquiring leading.
  destruct C1_is_leader_lifecycle as [_ H]. split.
  - destruct (H acquiring (Done (inr ∅)) (after_initial_write (inr ∅) acquiring) eq_refl)
      as [Hup _].
    apply Hup; reflexivity.
  - destruct (H leading (Fire 0%nat)
                (_on_watchdog (with_timers (cancel 0%nat (timers leading)) leading)) eq_refl)
      as [_ Hdown].
    apply Hdown; reflexivity.
Defined.

(** ** One renewal *)

(** What a write of the election puts in its request: the identifier as
    [value], the lease, and the precondition that [old] stands for. *)
Lemma write_if_absent_params (identifier : string) (ttl : Z) :
  let sent := lower_bool <$> <["value" := PyStr identifier]>
                               (set_conditions (PyBool false) (PyInt ttl)) in
  sent !! "value" = Some (PyStr identifier)
  /\ sent !! "prevExist" = Some (PyStr "false")
  /\ sent !! "prevValue" = None /\ sent !! "prevIndex" = None
  /\ sent !! "ttl" = Some (lower_bool (PyInt ttl)).
Proof.
  cbv zeta. unfold set_conditions; cbn [is_none negb py_in existsb py_eq py_num orb Z.eqb].
  rewrite !fmap_insert, fmap_empty.
  repeat split;
    repeat (first [ rewrite lookup_insert_eq | rewrite lookup_insert_ne by done ]);
    by rewrite ?lookup_empty.
Qed.

Lemma write_if_mine_params (identifier : string) (ttl : Z) :
  let sent := lower_bool <$> <["value" := PyStr identifier]>
                               (set_conditions (PyStr identifier) (PyInt ttl)) in
  sent !! "value" = Some (PyStr identifier)
  /\ sent !! "prevValue" = Some (PyStr identifier)
  /\ sent !! "prevExist" = None /\ sent !! "prevIndex" = None
  /\ sent !! "ttl" = Some (lower_bool (PyInt ttl)).
Proof.
  cbv zeta. unfold set_conditions; cbn [is_none negb py_in existsb py_eq py_num orb
                                        is_basestring].
  rewrite !fmap_insert, fmap_empty.
  repeat split;
    repeat (first [ rewrite lookup_insert_eq | rewrite lookup_insert_ne by done ]);
    by rewrite ?lookup_empty.
Qed.


(** ** The follower *)


Lemma ignored_inv event :
  ignored event = true ->
  action_not_free event = inr true /\ exists i, next_index event = inr i.
Proof.
  unfold ignored. destruct (action_not_free event) as [|[|]]; try discriminate.
  destruct (next_index event) as [|i]; try discriminate. eauto.
Qed.

Lemma freed_inv event :
  freed event = true ->
  action_not_free event = inr false /\ exists i, next_index event = inr i.
Proof.
  unfold freed. destruct (action_not_free event) as [|[|]]; try discriminate.
  destruct (next_index event) as [|i]; try discriminate. eauto.
Qed.

(** The action of a freed event is ['delete'] or ['expire'], and the action
    of an ignored one is neither. *)
Lemma freed_action event :
  freed event = true ->
  event !! "action" = Some (JStr "delete") \/ event !! "action" = Some (JStr "expire").
Proof.
  intros H. apply freed_inv in H as [H _]. unfold action_not_free in H.
  destruct (event !! "action") as [[| | |a| |]|]; try discriminate.
  injection H as H. apply negb_false_iff, orb_true_iff in H.
  destruct H as [H|H]; apply String.eqb_eq in H; subst; auto.
Qed.

Lemma ignored_action event :
  ignored event = true ->
  event !! "action" <> Some (JStr "delete") /\ event !! "action" <> Some (JStr "expire").
Proof.
  intros H. apply ignored_inv in H as [H _]. unfold action_not_free in H.
  split; intros E; rewrite E in H; discriminate.
Qed.




(** ** C6, amended: [set] returns the answer or raises [EtcdException] *)

(** C6, amended.  A [set] that passes its argument checks, answered with a
    status that is not an HTTP error and a JSON body [response] by the first
    server that can be reached: if [response] has no [errorCode], [set]
    returns [response]; if it has one, [set] raises [EtcdException], which
    carries [response] whole, its [errorCode] included.  [Election._write]
    makes [True] of the first and [False] of the second. *)
Theorem C6_set_returns_answer_or_raises_EtcdException
    (before after : list string) (server path : string)
    (value prev_value ttl : pyval) (status : Z) (response : gmap string json)
    (e : election) (old : pyval) rs ds tr :
  is_none value = false
  \/ (is_none ttl = true /\ py_in prev_value [PyBool true; PyBool false] = false) ->
  ~ (400 <= status < 600) ->
  servers e = (before ++ server :: after)%list ->
  let w := {| replies := replicate (length before) ConnectionError
                         ++ Response status (Some response) :: rs;
              draws := ds; trace := tr |} in
  (exists w',
      replies w' = rs
      /\ set (before ++ server :: after) path value prev_value ttl w
         = (match response !! "errorCode" with
            | None => Return response
            | Some _ => Raise (EtcdException response)
            end, w'))
  /\ (exists w',
         replies w' = rs
         /\ _write e old w
            = (Return match response !! "errorCode" with
                      | None => true
                      | Some _ => false
                      end, w')).
Proof.
  intros Hok Hstatus Hservers w. split.
  - rewrite set_is_request by done. subst w. rewrite request_first_answer.
    rewrite handle_response_ok by done.
    destruct (response !! "errorCode"); eexists; (split; [|reflexivity]); reflexivity.
  - unfold _write. rewrite Hservers, set_is_request by (by left).
    subst w. rewrite request_first_answer, handle_response_ok by done.
    destruct (response !! "errorCode"); eexists; (split; [|reflexivity]); reflexivity.
Qed.

Lemma C6_witness :
  let e := __init__ "lock" (Some ["http://a"; "http://b"]) None None (Some "me") "6f1c" in
  let w := {| replies := replicate 1 ConnectionError
                         ++ Response 200 (Some compare_failed) :: [];
              draws := []; trace := [] |} in
  (exists w',
      replies w' = []
      /\ set (["http://a"] ++ "http://b" :: []) "lock" (PyStr "me") (PyBool false) (PyInt 15) w
         = (Raise (EtcdException compare_failed), w'))
  /\ (exists w', replies w' = [] /\ _write e (PyBool false) w = (Return false, w')).
Proof.
  intros e w.
  apply (C6_set_returns_answer_or_raises_EtcdException
           ["http://a"] [] "http://b" "lock" (PyStr "me") (PyBool false) (PyInt 15)
           200 compare_failed e (PyBool false) [] [] []).
  - left; reflexivity.
  - lia.
  - reflexivity.
Defined.

(* ===================================================================== *)
(** * The retry loop and its delay *)
(* ===================================================================== *)

Import B64.

(** ** Rounding is monotone *)

Lemma rne_div2_bounds n s : n / 2 ^ s <= rne_div2 n s <= n / 2 ^ s + 1.
Proof.
  unfold rne_div2. destruct (2 * (n mod 2 ^ s) ?= 2 ^ s); [|lia|lia].
  destruct (Z.even (n / 2 ^ s)); lia.
Qed.

Lemma rne_div2_mono n1 n2 s : 0 <= s -> n1 <= n2 -> rne_div2 n1 s <= rne_div2 n2 s.
Proof.
  intros Hs Hn.
  assert (Hp : 0 < 2 ^ s) by (apply Z.pow_pos_nonneg; lia).
  assert (Hq : n1 / 2 ^ s <= n2 / 2 ^ s) by (apply Z.div_le_mono; lia).
  pose proof (rne_div2_bounds n1 s) as B1.
  pose proof (rne_div2_bounds n2 s) as B2.
  destruct (Z.eq_dec (n1 / 2 ^ s) (n2 / 2 ^ s)) as [E|E]; [|lia].
  assert (Hr : n1 mod 2 ^ s <= n2 mod 2 ^ s).
  { rewrite !Z.mod_eq by lia. rewrite E. lia. }
  unfold rne_div2 in *. rewrite E in *.
  destruct (2 * (n1 mod 2 ^ s) ?= 2 ^ s) eqn:C1;
    destruct (2 * (n2 mod 2 ^ s) ?= 2 ^ s) eqn:C2;
    try (apply Z.compare_eq in C1); try (apply Z.compare_eq in C2);
    rewrite ?Z.compare_lt_iff, ?Z.compare_gt_iff in *;
    try lia; destruct (Z.even (n2 / 2 ^ s)); lia.
Qed.

Lemma round_pos_bounds n :
  0 < n -> 2 ^ Z.log2 n <= round_pos n <= 2 ^ (Z.log2 n + 1).
Proof.
  intros Hn. pose proof (Z.log2_spec n Hn) as [Hlo Hhi].
  unfold round_pos. destruct (Z.leb_spec (Z.log2 n - 52) 0) as [Hs|Hs].
  - replace (Z.succ (Z.log2 n)) with (Z.log2 n + 1) in Hhi by lia. lia.
  - set (s := Z.log2 n - 52) in *.
    assert (Hp : 0 < 2 ^ s) by (apply Z.pow_pos_nonneg; lia).
    assert (E1 : 2 ^ Z.log2 n = 2 ^ 52 * 2 ^ s)
      by (rewrite <- Z.pow_add_r by lia; f_equal; lia).
    assert (E2 : 2 ^ (Z.log2 n + 1) = 2 ^ 53 * 2 ^ s)
      by (rewrite <- Z.pow_add_r by lia; f_equal; lia).
    replace (Z.succ (Z.log2 n)) with (Z.log2 n + 1) in Hhi by lia.
    rewrite E1 in *. rewrite E2 in *.
    pose proof (rne_div2_bounds n s) as B.
    assert (Q1 : 2 ^ 52 <= n / 2 ^ s) by (apply Z.div_le_lower_bound; lia).
    assert (Q2 : n / 2 ^ s < 2 ^ 53) by (apply Z.div_lt_upper_bound; lia).
    split; apply Z.mul_le_mono_nonneg_r; lia.
Qed.

Lemma round_pos_mono n1 n2 : 0 < n1 -> n1 <= n2 -> round_pos n1 <= round_pos n2.
Proof.
  intros H1 H12.
  assert (Hl : Z.log2 n1 <= Z.log2 n2) by (apply Z.log2_le_mono; lia).
  destruct (Z.eq_dec (Z.log2 n1) (Z.log2 n2)) as [E|E].
  - unfold round_pos. rewrite E.
    destruct (Z.leb_spec (Z.log2 n2 - 52) 0) as [Hs|Hs]; [lia|].
    apply Z.mul_le_mono_nonneg_r; [apply Z.pow_nonneg; lia|].
    apply rne_div2_mono; lia.
  - pose proof (round_pos_bounds n1 H1) as [_ B1].
    pose proof (round_pos_bounds n2 ltac:(lia)) as [B2 _].
    assert (2 ^ (Z.log2 n1 + 1) <= 2 ^ Z.log2 n2)
      by (apply Z.pow_le_mono_r; lia).
    lia.
Qed.

Lemma round_pos_pos n : 0 < n -> 0 < round_pos n.
Proof.
  intros H. pose proof (round_pos_bounds n H) as [B _].
  assert (0 < 2 ^ Z.log2 n) by (apply Z.pow_pos_nonneg; [lia|apply Z.log2_nonneg]).
  lia.
Qed.

Lemma round_mono n1 n2 : n1 <= n2 -> round n1 <= round n2.
Proof.
  intros H. destruct n1 as [|p1|p1], n2 as [|p2|p2]; cbn [round]; try lia.
  - pose proof (round_pos_pos (Z.pos p2)); lia.
  - apply round_pos_mono; lia.
  - pose proof (round_pos_pos (Z.pos p1)); lia.
  - pose proof (round_pos_pos (Z.pos p1)); pose proof (round_pos_pos (Z.pos p2)); lia.
  - assert (round_pos (Z.pos p2) <= round_pos (Z.pos p1)) by (apply round_pos_mono; lia).
    lia.
Qed.

Lemma fadd_mono a b1 b2 : b1 <= b2 -> fadd a b1 <= fadd a b2.
Proof. intros. apply round_mono. lia. Qed.

Lemma fsub_mono a1 a2 b : a1 <= a2 -> fsub a1 b <= fsub a2 b.
Proof. intros. apply round_mono. lia. Qed.

Lemma fmul_mono_l a1 a2 b : 0 <= b -> a1 <= a2 -> fmul a1 b <= fmul a2 b.
Proof.
  intros. apply Z.div_le_mono; [reflexivity|]. apply round_mono.
  apply Z.mul_le_mono_nonneg_r; lia.
Qed.

Lemma fmul_mono_r a b1 b2 : 0 <= a -> b1 <= b2 -> fmul a b1 <= fmul a b2.
Proof.
  intros. apply Z.div_le_mono; [reflexivity|]. apply round_mono.
  apply Z.mul_le_mono_nonneg_l; lia.
Qed.

(** The retry delay grows with the random draw. *)
Lemma retry_interval_mono r1 r2 : r1 <= r2 -> retry_interval r1 <= retry_interval r2.
Proof.
  intros H. unfold retry_interval.
  apply fadd_mono, fmul_mono_r; [discriminate|].
  apply fsub_mono, fmul_mono_l; [discriminate|].
  apply fmul_mono_l; [discriminate|]. exact H.
Qed.

Lemma retry_interval_bounds r : 0 <= r < one -> of_Z 4 <= retry_interval r <= of_Z 6.
Proof.
  intros [H0 H1]. split.
  - transitivity (retry_interval 0); [vm_compute; discriminate|apply retry_interval_mono; lia].
  - transitivity (retry_interval (one - 1)); [apply retry_interval_mono; lia|].
    vm_compute; discriminate.
Qed.

(** [B64] agrees with the Standard Library's IEEE-754 model on the literal
    [0.2] and, for sample draws [k / 2^53] (the extremes among them), on the
    retry delay. *)
Lemma retry_interval_agrees_with_ieee :
  to_spec f0_2 = S754_finite false 0x1999999999999A (-55)
  /\ Forall (fun k => to_spec (retry_interval (of_random_bits k))
                      = retry_interval_ieee (to_spec (of_random_bits k)))
       [0; 1; 2; 3; 2 ^ 26; 2 ^ 52 - 1; 2 ^ 52; 2 ^ 52 + 1; 1234567890123456;
        6004799503160661; 2 ^ 53 - 4; 2 ^ 53 - 3; 2 ^ 53 - 2; 2 ^ 53 - 1].
Proof. split; [by vm_compute|]. repeat constructor. Qed.

(** ** C9: every server unreachable *)

Section Rounds.

Variables (servers : list string) (method path : string) (kw : kwargs).

(** What one failed round and its sleep leave in the trace. *)
Let round (random : fx) : list io :=
  map (attempt method path kw) servers ++ [Sleep (retry_interval random)].

Lemma try_servers_all_unreachable rs ds tr :
  try_servers servers method path kw
    {| replies := replicate (length servers) ConnectionError ++ rs;
       draws := ds; trace := tr |}
  = (None, {| replies := rs; draws := ds;
              trace := tr ++ map (attempt method path kw) servers |}).
Proof.
  pose proof (try_servers_unreachable method path kw servers [] rs ds tr) as H.
  rewrite app_nil_r in H. exact H.
Qed.

Lemma request_rounds_all_unreachable (ds : list fx) :
  forall (fuel : nat) tr,
    (length ds < fuel)%nat ->
    request_rounds fuel servers method path kw
      {| replies := replicate (length ds * length servers) ConnectionError;
         draws := ds; trace := tr |}
    = (Pending, {| replies := []; draws := []; trace := tr ++ flat_map round ds |}).
Proof.
  induction ds as [|random ds IH]; intros fuel tr Hfuel;
    (destruct fuel as [|fuel]; [cbn in Hfuel; lia|]).
  - cbn. rewrite app_nil_r. by destruct servers.
  - cbn [length Nat.mul request_rounds].
    rewrite replicate_add, try_servers_all_unreachable. cbn [draws replies trace].
    rewrite IH by (cbn in Hfuel; lia).
    subst round. cbn [flat_map]. by rewrite <- !app_assoc.
Qed.

End Rounds.

(** C9, amended.  While every attempt ends in a connection error, [request]
    neither returns nor raises: after any number of rounds it has tried every
    server in order in each round, has slept once after each round, and is
    still in the call.  Each sleep lasts between 4 and 6 seconds, both bounds
    included, for the class constants [CONNECT_RETRY_INTERVAL = 5] and
    [CONNECT_RETRY_RANDOM_FACTOR = 0.2] and a draw of [random.random()] in
    [0, 1). *)
Theorem C9_unreachable_servers_retry_forever_with_bounded_sleep
    (servers : list string) (method path : string) (kw : kwargs)
    (ds : list fx) (tr : list io) :
  Forall (fun random => 0 <= random < one) ds ->
  request servers method path kw
    {| replies := replicate (length ds * length servers) ConnectionError;
       draws := ds; trace := tr |}
  = (Pending,
     {| replies := []; draws := [];
        trace := tr ++ flat_map (fun random =>
                                   (map (attempt method path kw) servers
                                    ++ [Sleep (retry_interval random)])%list) ds |})
  /\ Forall (fun random => of_Z 4 <= retry_interval random <= of_Z 6) ds.
Proof.
  intros Hds. split.
  - unfold request; cbn [draws]. apply request_rounds_all_unreachable. lia.
  - eapply Forall_impl; [exact Hds|]. intros r Hr. by apply retry_interval_bounds.
Qed.

Lemma C9_witness :
  request ["http://a"; "http://b"] "GET" "lock" (with_params ∅)
    {| replies := replicate (length [of_random_bits 0; of_random_bits (2 ^ 53 - 1)]
                             * length ["http://a"; "http://b"]) ConnectionError;
       draws := [of_random_bits 0; of_random_bits (2 ^ 53 - 1)]; trace := [] |}
  = (Pending,
     {| replies := []; draws := [];
        trace := [] ++ flat_map (fun random =>
                                   (map (attempt "GET" "lock" (with_params ∅))
                                      ["http://a"; "http://b"]
                                    ++ [Sleep (retry_interval random)])%list)
                         [of_random_bits 0; of_random_bits (2 ^ 53 - 1)] |})
  /\ Forall (fun random => of_Z 4 <= retry_interval random <= of_Z 6)
       [of_random_bits 0; of_random_bits (2 ^ 53 - 1)].
Proof.
  apply (C9_unreachable_servers_retry_forever_with_bounded_sleep
           ["http://a"; "http://b"] "GET" "lock" (with_params ∅)
           [of_random_bits 0; of_random_bits (2 ^ 53 - 1)] []).
  repeat constructor; vm_compute; congruence.
Defined.

(** C9, as stated, fails at its upper bound: for the draw
    [(2^53 - 1) / 2^53], the largest that [random.random()] returns, the
    delay is rounded to exactly 6 seconds, which is [5 * (1 + 0.2)] and not
    below it.  The Standard Library's IEEE-754 model gives the same value,
    and the client sleeps that long. *)
Lemma C9_counterexample_sleep_reaches_upper_bound :
  let random := of_random_bits (2 ^ 53 - 1) in
  0 <= random < one
  /\ retry_interval random = of_Z 6
  /\ retry_interval_ieee (to_spec random) = to_spec (of_Z 6)
  /\ SFmul 53 1024 (to_spec (of_Z 5)) (SFadd 53 1024 (to_spec one) (to_spec f0_2))
     = to_spec (of_Z 6)
  /\ snd (request ["http://localhost:4001"] "GET" "lock" (with_params ∅)
            {| replies := [ConnectionError]; draws := [random]; trace := [] |})
     = {| replies := []; draws := [];
          trace := [attempt "GET" "lock" (with_params ∅) "http://localhost:4001";
                    Sleep (of_Z 6)] |}
  /\ ~ (forall random, 0 <= random < one ->
          of_Z 4 <= retry_interval random < of_Z 6).
Proof.
  cbv zeta.
  assert (Hr : 0 <= of_random_bits (2 ^ 53 - 1) < one) by (vm_compute; split; congruence).
  assert (H6 : retry_interval (of_random_bits (2 ^ 53 - 1)) = of_Z 6) by (by vm_compute).
  split; [exact Hr|]. split; [exact H6|].
  split; [by vm_compute|]. split; [by vm_compute|]. split; [by vm_compute|].
  intros H. specialize (H _ Hr). rewrite H6 in H. lia.
Qed.

(* ===================================================================== *)
(** * Further properties of the store client *)
(* ===================================================================== *)

(** ** The URL *)

Lemma lstrip_v_prefix (s : string) : lstrip "v" ("v" +:+ s) = lstrip "v" s.
Proof. reflexivity. Qed.

(** X1.  The version can be given with or without a leading ['v'], any
    number of them: the request is the same.  Without [version] and
    [prefix] the URL is the server followed by [/v2/keys/] and the path. *)
Theorem request_version_leading_v_is_ignored
    (servers : list string) (method path version : string)
    (prefix : option string) (params : option (gmap string pyval)) (w : world) :
  request servers method path
    {| kw_version := Some ("v" +:+ version); kw_prefix := prefix; kw_params := params |} w
  = request servers method path
      {| kw_version := Some version; kw_prefix := prefix; kw_params := params |} w
  /\ (forall server,
         attempt method path
           {| kw_version := None; kw_prefix := None; kw_params := params |} server
         = Request method (server +:+ "/v2/keys/" +:+ path)
             (fmap (M:=option) (fmap (M:=gmap string) lower_bool) params)).
Proof.
  split.
  - apply request_kw; try reflexivity.
  - intros server. unfold attempt, urljoin, version_of, prefix_of, params_of; cbn.
    reflexivity.
Qed.

(** ** What [request] sends never equals a Python boolean *)

Lemma lower_bool_not_bool (v : pyval) :
  py_in (lower_bool v) [PyBool true; PyBool false] = false.
Proof.
  unfold lower_bool.
  destruct (py_in v [PyBool true; PyBool false]) eqn:H; [|exact H].
  by destruct (py_truth v).
Qed.

(** X2.  No parameter that [request] sends equals [True] or [False] (which
    [requests] would write ['True'] and ['False']); the parameters sent have
    the keys the caller gave; a value that equals neither [True] nor [False]
    is sent as it is, and lowering what was lowered changes nothing. *)
Theorem request_params_have_no_python_booleans
    (params sent : gmap string pyval) (k : string) (v : pyval) :
  params_of (with_params params) = Some sent ->
  sent !! k = Some v ->
  py_in v [PyBool true; PyBool false] = false
  /\ lower_bool v = v
  /\ (exists v0, params !! k = Some v0 /\ v = lower_bool v0)
  /\ (forall k', is_Some (sent !! k') <-> is_Some (params !! k')).
Proof.
  unfold params_of; cbn. intros [= <-] Hk.
  rewrite lookup_fmap in Hk.
  destruct (params !! k) as [v0|] eqn:Hv0; [|discriminate].
  injection Hk as <-.
  assert (Hno : py_in (lower_bool v0) [PyBool true; PyBool false] = false)
    by apply lower_bool_not_bool.
  split; [exact Hno|]. split; [unfold lower_bool at 1; by rewrite Hno|].
  split; [by exists v0|].
  intros k'. rewrite lookup_fmap. by rewrite fmap_is_Some.
Qed.

Lemma request_params_have_no_python_booleans_witness :
  py_in (PyStr "true") [PyBool true; PyBool false] = false
  /\ lower_bool (PyStr "true") = PyStr "true"
  /\ (exists v0, ({[ "dir" := PyBool true ]} : gmap string pyval) !! "dir" = Some v0
                 /\ PyStr "true" = lower_bool v0)
  /\ (forall k', is_Some (({[ "dir" := PyStr "true" ]} : gmap string pyval) !! k')
                 <-> is_Some (({[ "dir" := PyBool true ]} : gmap string pyval) !! k')).
Proof.
  apply (request_params_have_no_python_booleans
           {[ "dir" := PyBool true ]} {[ "dir" := PyStr "true" ]} "dir" (PyStr "true")).
  - vm_compute; reflexivity.
  - vm_compute; reflexivity.
Defined.

(** ** Success, and recovery after rounds without any server *)

Section MoreRounds.

Variables (servers : list string) (method path : string) (kw : kwargs).

(** Failed rounds, one per draw in [ds], followed by whatever comes next. *)
Lemma request_rounds_skip_unreachable (ds : list B64.fx) :
  forall (fuel : nat) rs ds' tr,
    request_rounds (length ds + fuel) servers method path kw
      {| replies := replicate (length ds * length servers) ConnectionError ++ rs;
         draws := ds ++ ds'; trace := tr |}
    = request_rounds fuel servers method path kw
        {| replies := rs; draws := ds';
           trace := tr ++ flat_map (fun random =>
                                      (map (attempt method path kw) servers
                                       ++ [Sleep (retry_interval random)])%list) ds |}.
Proof.
  induction ds as [|random ds IH]; intros fuel rs ds' tr.
  - cbn. by rewrite app_nil_r.
  - cbn [length Nat.mul Nat.add request_rounds app].
    rewrite replicate_add, <- app_assoc, try_servers_all_unreachable.
    cbn [draws replies trace]. rewrite IH. cbn [flat_map].
    by rewrite <- !app_assoc.
Qed.

End MoreRounds.

(** X3.  After any number of rounds in which no server could be reached,
    each followed by its sleep, the first answer of the next round decides
    the call as it would have at once; the draws not used stay.  When the
    answer has a status that is not an HTTP error and a JSON body without
    [errorCode], [request] returns that body. *)
Theorem request_recovers_after_unreachable_rounds
    (before after : list string) (server method path : string) (kw : kwargs)
    (ds ds' : list B64.fx) (status : Z) (body : option (gmap string json))
    (response : gmap string json) rs tr :
  ~ (400 <= status < 600) ->
  body = Some response ->
  response !! "errorCode" = None ->
  let servers := (before ++ server :: after)%list in
  request servers method path kw
    {| replies := replicate (length ds * length servers) ConnectionError
                  ++ replicate (length before) ConnectionError
                  ++ Response status body :: rs;
       draws := ds ++ ds'; trace := tr |}
  = (Return response,
     {| replies := rs; draws := ds';
        trace := tr
                 ++ flat_map (fun random =>
                                (map (attempt method path kw) servers
                                 ++ [Sleep (retry_interval random)])%list) ds
                 ++ map (attempt method path kw) (before ++ [server]) |}).
Proof.
  intros Hstatus -> Hcode servers. unfold request; cbn [draws].
  replace (S (length (ds ++ ds'))) with (length ds + S (length ds'))%nat
    by (rewrite length_app; lia).
  rewrite request_rounds_skip_unreachable. cbn [request_rounds].
  subst servers. rewrite try_servers_unreachable. cbn.
  rewrite handle_response_ok, Hcode by done.
  rewrite (map_app _ before [server]); cbn [map]. by rewrite <- ?app_assoc.
Qed.

Lemma request_recovers_after_unreachable_rounds_witness :
  request (["http://a"] ++ "http://b" :: []) "GET" "lock" (with_params ∅)
    {| replies := replicate (length [B64.of_random_bits 1]
                             * length (["http://a"] ++ "http://b" :: [])) ConnectionError
                  ++ replicate (length ["http://a"]) ConnectionError
                  ++ Response 200 (Some {[ "action" := JStr "get" ]}) :: [];
       draws := [B64.of_random_bits 1] ++ []; trace := [] |}
  = (Return {[ "action" := JStr "get" ]},
     {| replies := []; draws := [];
        trace := [] ++ flat_map (fun random =>
                                   (map (attempt "GET" "lock" (with_params ∅))
                                      (["http://a"] ++ "http://b" :: [])
                                    ++ [Sleep (retry_interval random)])%list)
                         [B64.of_random_bits 1]
                    ++ map (attempt "GET" "lock" (with_params ∅))
                         (["http://a"] ++ ["http://b"]) |}).
Proof.
  apply (request_recovers_after_unreachable_rounds
           ["http://a"] [] "http://b" "GET" "lock" (with_params ∅)
           [B64.of_random_bits 1] [] 200 (Some {[ "action" := JStr "get" ]})
           {[ "action" := JStr "get" ]} [] []).
  - lia.
  - reflexivity.
  - reflexivity.
Defined.

(** X4.  A client without servers contacts nobody: [request] takes no
    answer from the network, records no attempt, sleeps once per draw and
    never ends. *)
Theorem request_without_servers_only_sleeps
    (method path : string) (kw : kwargs) (ds : list B64.fx) rs tr :
  request [] method path kw {| replies := rs; draws := ds; trace := tr |}
  = (Pending,
     {| replies := rs; draws := [];
        trace := tr ++ map (fun random => Sleep (retry_interval random)) ds |}).
Proof.
  unfold request; cbn [draws].
  assert (H : forall fuel tr, (length ds < fuel)%nat ->
                request_rounds fuel [] method path kw
                  {| replies := rs; draws := ds; trace := tr |}
                = (Pending,
                   {| replies := rs; draws := [];
                      trace := tr ++ map (fun random => Sleep (retry_interval random)) ds |})).
  { clear tr. induction ds as [|random ds' IH]; intros fuel tr Hfuel;
      (destruct fuel as [|fuel]; [cbn in Hfuel; lia|]); cbn.
    - by rewrite app_nil_r.
    - rewrite IH by (cbn in Hfuel; lia). by rewrite <- app_assoc. }
  apply H. lia.
Qed.

(** ** The parameters of [set] and [get] *)

(** X5.  [set] derives at most one precondition from [prev_value], by its
    type: none from [None], [prevExist] from a boolean (and from the
    integers 0 and 1), [prevValue] from a string, [prevIndex] from any other
    integer; the lease is there exactly when [ttl] is not [None]. *)
Theorem set_conditions_by_type (prev_value ttl : pyval) :
  let params := set_conditions prev_value ttl in
  let only (k : string) :=
    params !! k = Some prev_value
    /\ forall k', k' <> k -> k' <> "ttl" -> params !! k' = None in
  match prev_value with
  | PyNone => forall k', k' <> "ttl" -> params !! k' = None
  | PyBool _ => only "prevExist"
  | PyStr _ => only "prevValue"
  | PyInt z => if (z =? 1) || (z =? 0) then only "prevExist" else only "prevIndex"
  end
  /\ params !! "ttl" = (if is_none ttl then None else Some ttl).
Proof.
  cbv zeta. unfold set_conditions.
  assert (Hbase : forall k' : string,
             k' <> "ttl" ->
             (if negb (is_none ttl) then <["ttl" := ttl]> (∅ : gmap string pyval) else ∅)
               !! k' = None).
  { intros k' Hk'. destruct (negb (is_none ttl));
      [rewrite lookup_insert_ne by done|]; apply lookup_empty. }
  assert (Httl : (if negb (is_none ttl) then <["ttl" := ttl]> (∅ : gmap string pyval) else ∅)
                   !! "ttl" = (if is_none ttl then None else Some ttl)).
  { destruct (is_none ttl); cbn [negb]; [apply lookup_empty|apply lookup_insert_eq]. }
  destruct prev_value as [|b|z|s];
    cbn [py_in existsb py_eq py_num is_basestring is_none negb orb].
  - split; [exact Hbase|exact Httl].
  - replace ((if b then 1 else 0) =? 1) with b by (by destruct b).
    replace ((if b then 1 else 0) =? 0) with (negb b) by (by destruct b).
    replace (b || (negb b || false)) with true by (by destruct b).
    split; [split|].
    + apply lookup_insert_eq.
    + intros k' H1 H2. rewrite lookup_insert_ne by done. by apply Hbase.
    + by rewrite lookup_insert_ne.
  - rewrite orb_false_r. destruct ((z =? 1) || (z =? 0)).
    + split; [split|].
      * apply lookup_insert_eq.
      * intros k' H1 H2. rewrite lookup_insert_ne by done. by apply Hbase.
      * by rewrite lookup_insert_ne.
    + split; [split|].
      * apply lookup_insert_eq.
      * intros k' H1 H2. rewrite lookup_insert_ne by done. by apply Hbase.
      * by rewrite lookup_insert_ne.
  - split; [split|].
    + apply lookup_insert_eq.
    + intros k' H1 H2. rewrite lookup_insert_ne by done. by apply Hbase.
    + by rewrite lookup_insert_ne.
Qed.

(** X6.  [set] with [value = None], no lease and a [prev_value] that is a
    string, an integer other than 0 and 1, or [None], is one [DELETE]
    request whose only parameter is that precondition ([prevValue],
    [prevIndex], or none at all), answered as any request is. *)
Theorem set_none_is_conditional_delete
    (server : string) (servers : list string) (path : string) (prev_value : pyval)
    (status : Z) (body : option (gmap string json)) rs ds tr :
  py_in prev_value [PyBool true; PyBool false] = false ->
  set (server :: servers) path PyNone prev_value PyNone
    {| replies := Response status body :: rs; draws := ds; trace := tr |}
  = (handle_response status body,
     {| replies := rs; draws := ds;
        trace := tr ++ [Request "DELETE" (urljoin [server; "v2"; "keys"; path])
                          (Some match prev_value with
                                | PyNone => ∅
                                | PyStr s => {[ "prevValue" := PyStr s ]}
                                | v => {[ "prevIndex" := v ]}
                                end)] |}).
Proof.
  intros Hin. rewrite set_is_request by (right; by split).
  cbn [is_none]. rewrite request_first_server.
  unfold attempt, version_of, prefix_of, params_of, set_conditions;
    cbn [kw_version kw_prefix kw_params with_params default is_none negb
         fmap option_fmap option_map].
  rewrite Hin.
  destruct prev_value as [|b|z|s]; cbn [is_basestring is_none negb].
  - by rewrite fmap_empty.
  - by destruct b.
  - rewrite insert_empty, map_fmap_singleton.
    unfold lower_bool. by rewrite Hin.
  - by rewrite insert_empty, map_fmap_singleton.
Qed.

Lemma set_none_is_conditional_delete_witness :
  set ("http://a" :: []) "lock" PyNone (PyStr "me") PyNone
    {| replies := Response 200 (Some ∅) :: []; draws := []; trace := [] |}
  = (handle_response 200 (Some ∅),
     {| replies := []; draws := [];
        trace := [] ++ [Request "DELETE" (urljoin ["http://a"; "v2"; "keys"; "lock"])
                          (Some {[ "prevValue" := PyStr "me" ]})] |}).
Proof.
  apply (set_none_is_conditional_delete "http://a" [] "lock" (PyStr "me") 200 (Some ∅) [] [] []).
  reflexivity.
Defined.

Lemma get_sends_wait_and_waitIndex_general (recursive sorted : bool) (i : Z) :
  i <> 0 /\ i <> 1 ->
  params_of (with_params (get_params recursive sorted (WaitIndex i)))
  = Some (<["wait" := PyStr "true"]>
            (<["waitIndex" := PyInt i]>
               (<["sorted" := PyStr (bool_token sorted)]>
                  (<["recursive" := PyStr (bool_token recursive)]> ∅)))).
Proof.
  intros [H0 H1]. unfold params_of, get_params;
    cbn [kw_params with_params fmap option_fmap option_map wait_val wait_int]. f_equal.
  assert (Hin : py_in (PyInt i) [PyBool true; PyBool false] = false).
  { unfold py_in; cbn. apply Z.eqb_neq in H0, H1. by rewrite H0, H1. }
  rewrite Hin; cbn [negb].
  rewrite !fmap_insert, fmap_empty, !lower_bool_bool.
  replace (lower_bool (PyInt i)) with (PyInt i) by (unfold lower_bool; by rewrite Hin).
  replace (lower_bool (PyBool true)) with (PyStr "true") by reflexivity.
  rewrite (insert_insert_ne _ "waitIndex" "wait") by done.
  by rewrite insert_insert_eq.
Qed.

(** X7.  The parameters [get] sends: always [recursive] and [sorted] as
    tokens; for [wait] a boolean, [wait] as its token and nothing else; for
    [wait] an integer other than 0 and 1, [wait] true and [waitIndex] that
    integer, unchanged. *)
Theorem get_sends_wait_and_waitIndex (recursive sorted : bool) (wait : wait_arg) :
  match wait with WaitIndex i => i <> 0 /\ i <> 1 | WaitBool _ => True end ->
  let flags : gmap string pyval :=
    <["sorted" := PyStr (bool_token sorted)]>
      (<["recursive" := PyStr (bool_token recursive)]> ∅) in
  params_of (with_params (get_params recursive sorted wait))
  = Some match wait with
         | WaitBool b => <["wait" := PyStr (bool_token b)]> flags
         | WaitIndex i => <["wait" := PyStr "true"]> (<["waitIndex" := PyInt i]> flags)
         end.
Proof.
  intros Hwait. cbv zeta. unfold params_of, get_params;
    cbn [kw_params with_params fmap option_fmap option_map]. f_equal.
  destruct wait as [b|i]; cbn [wait_val wait_int].
  - replace (py_in (PyBool b) [PyBool true; PyBool false]) with true by (by destruct b).
    cbn [negb]. by rewrite !fmap_insert, fmap_empty, !lower_bool_bool.
  - pose proof (get_sends_wait_and_waitIndex_general recursive sorted i Hwait) as H.
    unfold params_of, get_params in H;
      cbn [kw_params with_params fmap option_fmap option_map wait_val wait_int] in H.
    by injection H.
Qed.

Lemma get_sends_wait_and_waitIndex_witness :
  params_of (with_params (get_params false false (WaitIndex 8)))
  = Some (<["wait" := PyStr "true"]>
            (<["waitIndex" := PyInt 8]>
               (<["sorted" := PyStr (bool_token false)]>
                  (<["recursive" := PyStr (bool_token false)]> ∅)))).
Proof.
  apply (get_sends_wait_and_waitIndex false false (WaitIndex 8)). split; lia.
Defined.

(** ** [in_order_create], [mkdir] and [rmdir] *)

(** X8.  Each of the three is one request, answered as any request is:
    [in_order_create] a [POST] with the value, sent unchanged when it is a
    string; [mkdir] a [PUT] with [dir] as the token [true], and the lease
    when [ttl] is not [None]; [rmdir] a [DELETE] with [dir] as the token
    [true] and [recursive] as its token. *)
Theorem directory_and_queue_requests
    (server : string) (servers : list string) (path value : string)
    (ttl : pyval) (recursive : bool)
    (status : Z) (body : option (gmap string json)) rs ds tr :
  let w := {| replies := Response status body :: rs; draws := ds; trace := tr |} in
  let sent method params :=
    (handle_response status body,
     {| replies := rs; draws := ds;
        trace := tr ++ [Request method (urljoin [server; "v2"; "keys"; path])
                          (Some params)] |}) in
  in_order_create (server :: servers) path (PyStr value) w
  = sent "POST" {[ "value" := PyStr value ]}
  /\ mkdir (server :: servers) path ttl w
     = sent "PUT" (if is_none ttl then {[ "dir" := PyStr "true" ]}
                   else <["ttl" := lower_bool ttl]> {[ "dir" := PyStr "true" ]})
  /\ rmdir (server :: servers) path recursive w
     = sent "DELETE" (<["recursive" := PyStr (bool_token recursive)]>
                        {[ "dir" := PyStr "true" ]}).
Proof.
  cbv zeta. unfold in_order_create, mkdir, rmdir.
  rewrite !request_first_server.
  unfold attempt, version_of, prefix_of, params_of;
    cbn [kw_version kw_prefix kw_params with_params default
         fmap option_fmap option_map].
  split; [|split].
  - by rewrite map_fmap_singleton.
  - destruct (is_none ttl); cbn [negb];
      by rewrite ?fmap_insert, map_fmap_singleton.
  - by rewrite fmap_insert, map_fmap_singleton, lower_bool_bool.
Qed.

(** ** The events of [watch_iter] *)

Section Watch.

Variables (server : string) (servers : list string) (path : string) (status : Z).
Hypothesis status_ok : ~ (400 <= status < 600).

(** The request of the [get] that the generator makes with [index]. *)
Let asked (index : wait_arg) : io :=
  attempt "GET" path (with_params (get_params false false index)) server.

Lemma indexed_event_inv event :
  indexed_event event = true ->
  event !! "errorCode" = None
  /\ exists i, next_index event = inr i
               /\ py_in (PyInt i) [PyBool true; PyBool false] = false.
Proof.
  unfold indexed_event. destruct (event !! "errorCode"); [discriminate|].
  destruct (next_index event) as [|i]; [discriminate|].
  intros H. apply negb_true_iff in H. eauto.
Qed.

Lemma watch_take_yields (events : list (gmap string json)) :
  Forall (fun event => indexed_event event = true) events ->
  forall st index rs ds tr,
    watch_index st = inr index ->
    watch_take (length events) (server :: servers) path st
      {| replies := map (fun event => Response status (Some event)) events ++ rs;
         draws := ds; trace := tr |}
    = (Return events,
       {| replies := rs; draws := ds;
          trace := tr ++ map asked (watch_indices st events) |}).
Proof.
  induction 1 as [|event events Hev _ IH]; intros st index rs ds tr Hst.
  - cbn. by rewrite app_nil_r.
  - destruct (indexed_event_inv _ Hev) as [Hcode (i & Hi & _)].
    cbn [length watch_take map app watch_indices]. rewrite Hst.
    unfold bind at 1. unfold watch_next at 1. rewrite Hst.
    unfold bind at 1, get. rewrite request_first_server.
    rewrite handle_response_ok, Hcode by done.
    unfold ret at 1. cbn [fst snd]. unfold bind at 1.
    rewrite (IH (WatchYielded event) (WaitIndex i))
      by (unfold watch_index; by rewrite Hi).
    unfold ret. cbn [map]. subst asked. by rewrite <- app_assoc.
Qed.

Lemma watch_indices_after (events : list (gmap string json)) :
  Forall (fun event => indexed_event event = true) events ->
  forall st index,
    watch_index st = inr index ->
    length (watch_indices st events) = length events
    /\ (forall event events', events = event :: events' ->
          watch_indices st events !! 0%nat = Some index)
    /\ (forall (k : nat) event,
          events !! k = Some event -> (S k < length events)%nat ->
          exists i, next_index event = inr i
                    /\ watch_indices st events !! S k = Some (WaitIndex i)).
Proof.
  induction 1 as [|event events Hev _ IH]; intros st index Hst.
  - repeat split; [discriminate|]. intros k event Hk. by rewrite lookup_nil in Hk.
  - destruct (indexed_event_inv _ Hev) as [_ (i & Hi & _)].
    assert (Hnext : watch_index (WatchYielded event) = inr (WaitIndex i))
      by (unfold watch_index; by rewrite Hi).
    destruct (IH _ _ Hnext) as (Hlen & Hhead & Hrest).
    cbn [watch_indices]. rewrite Hst. split; [cbn; by rewrite Hlen|].
    split; [done|].
    intros [|k] event' Hk Hlt; cbn in Hk, Hlt.
    + injection Hk as <-. exists i. split; [done|].
      destruct events as [|event2 events2]; [cbn in Hlt; lia|].
      cbn [lookup]. by apply (Hhead event2 events2).
    + destruct (Hrest k event' Hk ltac:(lia)) as (i' & Hi' & Hlook).
      exists i'. by split.
Qed.

End Watch.

(** X9.  While the first server answers each [get] of the generator with a
    status that is not an HTTP error and an event without [errorCode] whose
    modification index is not followed by 0 or 1, the generator yields these
    events, in order, one per demand and one request per event: the first
    request reads without waiting, and the request after an event with
    index [i] carries [wait] true and [waitIndex] [i + 1]. *)
Theorem watch_iter_yields_answers_in_order
    (server : string) (servers : list string) (path : string) (status : Z)
    (events : list (gmap string json)) rs ds tr :
  ~ (400 <= status < 600) ->
  Forall (fun event => indexed_event event = true) events ->
  let asked index :=
    attempt "GET" path (with_params (get_params false false index)) server in
  let indices := watch_indices WatchStart events in
  watch_take (length events) (server :: servers) path WatchStart
    {| replies := map (fun event => Response status (Some event)) events ++ rs;
       draws := ds; trace := tr |}
  = (Return events,
     {| replies := rs; draws := ds; trace := tr ++ map asked indices |})
  /\ length indices = length events
  /\ (events <> [] -> indices !! 0%nat = Some (WaitBool false))
  /\ (forall (k : nat) event,
         events !! k = Some event -> (S k < length events)%nat ->
         exists i sent,
           next_index event = inr i
           /\ indices !! S k = Some (WaitIndex i)
           /\ params_of (with_params (get_params false false (WaitIndex i))) = Some sent
           /\ sent !! "wait" = Some (PyStr "true")
           /\ sent !! "waitIndex" = Some (PyInt i)).
Proof.
  intros Hstatus Hevents. cbv zeta.
  split; [by apply (watch_take_yields server servers path status Hstatus events Hevents
                      WatchStart (WaitBool false))|].
  destruct (watch_indices_after events Hevents WatchStart (WaitBool false) eq_refl)
    as (Hlen & Hhead & Hrest).
  split; [done|]. split.
  - destruct events as [|event events']; [done|]. intros _. by eapply Hhead.
  - intros k event Hk Hlt. destruct (Hrest k event Hk Hlt) as (i & Hi & Hlook).
    assert (Hev : indexed_event event = true).
    { rewrite Forall_forall in Hevents. apply Hevents.
      apply list_elem_of_lookup. eauto. }
    destruct (indexed_event_inv _ Hev) as [_ (i' & Hi' & Hin)].
    rewrite Hi in Hi'. injection Hi' as <-.
    assert (H0 : i <> 0 /\ i <> 1).
    { unfold py_in in Hin; cbn in Hin.
      rewrite orb_false_r in Hin. apply orb_false_iff in Hin as [H1 H0].
      apply Z.eqb_neq in H0, H1. by split. }
    pose proof (get_sends_wait_and_waitIndex_general false false i H0) as Hsent.
    eexists i, _. split; [done|]. split; [done|]. split; [exact Hsent|].
    split; [apply lookup_insert_eq|].
    rewrite lookup_insert_ne by done. apply lookup_insert_eq.
Qed.

Lemma watch_iter_yields_answers_in_order_witness :
  let seen : gmap string json :=
    {[ "action" := JStr "get"; "node" := JDict {[ "modifiedIndex" := JInt 7 ]} ]} in
  let changed : gmap string json :=
    {[ "action" := JStr "set"; "node" := JDict {[ "modifiedIndex" := JInt 9 ]} ]} in
  fst (watch_take 2 ["http://a"] "lock" WatchStart
         {| replies := [Response 200 (Some seen); Response 200 (Some changed)];
            draws := []; trace := [] |})
  = Return [seen; changed]
  /\ watch_indices WatchStart [seen; changed] !! 1%nat = Some (WaitIndex 8).
Proof.
  intros seen changed.
  destruct (watch_iter_yields_answers_in_order "http://a" [] "lock" 200
              [seen; changed] [] [] [])
    as (Hrun & _ & _ & Hrest).
  - lia.
  - repeat constructor.
  - split.
    + cbn [length map app] in Hrun. by rewrite Hrun.
    + destruct (Hrest 0%nat seen eq_refl ltac:(cbn; lia)) as (i & sent & Hi & Hlook & _).
      vm_compute in Hi. injection Hi as <-. exact Hlook.
Defined.

(** X10.  When the event the generator has yielded has no [node], or a
    [node] without [modifiedIndex], the next demand raises [KeyError] before
    any request: the world stays as it was. *)
Theorem watch_iter_event_without_index_raises_before_io
    (servers : list string) (path : string) (result : gmap string json) (w : world) :
  result !! "node" = None
  \/ (exists node, result !! "node" = Some (JDict node)
                   /\ node !! "modifiedIndex" = None) ->
  exists key,
    watch_next servers path (WatchYielded result) w = (Raise (KeyError key), w)
    /\ (result !! "node" = None -> key = "node")
    /\ (is_Some (result !! "node") -> key = "modifiedIndex").
Proof.
  intros [H|(node & Hn & Hi)]; unfold watch_next, watch_index, next_index.
  - rewrite H. exists "node". split; [done|]. split; [done|].
    intros [x Hx]. congruence.
  - rewrite Hn, Hi. exists "modifiedIndex". split; [done|]. split; [congruence|done].
Qed.

Lemma watch_iter_event_without_index_raises_before_io_witness :
  exists key,
    watch_next ["http://a"] "lock"
      (WatchYielded {[ "action" := JStr "get"; "node" := JDict {[ "dir" := JBool true ]} ]})
      {| replies := [Response 200 (Some ∅)]; draws := []; trace := [] |}
    = (Raise (KeyError key),
       {| replies := [Response 200 (Some ∅)]; draws := []; trace := [] |})
    /\ (({[ "action" := JStr "get"; "node" := JDict {[ "dir" := JBool true ]} ]}
           : gmap string json) !! "node" = None -> key = "node")
    /\ (is_Some (({[ "action" := JStr "get"; "node" := JDict {[ "dir" := JBool true ]} ]}
                    : gmap string json) !! "node") -> key = "modifiedIndex").
Proof.
  apply (watch_iter_event_without_index_raises_before_io ["http://a"] "lock"
           {[ "action" := JStr "get"; "node" := JDict {[ "dir" := JBool true ]} ]}).
  right. exists {[ "dir" := JBool true ]}. split; reflexivity.
Defined.

(* ===================================================================== *)
(** * Further properties of the election *)
(* ===================================================================== *)

(** ** What every run keeps *)

Lemma same_config_refl e : same_config e e.
Proof. by repeat split. Qed.

Lemma cancel_only t s : cancel t [(t, s)] = [].
Proof. unfold cancel; cbn. by rewrite Nat.eqb_refl. Qed.

Lemma disarmed_nil st : one_watchdog st -> disarmed (self st) (timers st) = [].
Proof.
  unfold one_watchdog, disarmed. intros [H|(t & H & Hw)]; rewrite H.
  - by destruct (_watchdog (self st)).
  - rewrite Hw. apply cancel_only.
Qed.

Section Kept.

Variable e : election.

Lemma kept_block p c st : kept e st -> own_call e c -> kept e (block p c st).
Proof.
  intros (Hcfg & Hone & Hlead & Hcalls) Hc. repeat split; try apply Hcfg; try done.
  cbn. apply Forall_app. split; [done|]. by constructor.
Qed.

Lemma kept_die x st : kept e st -> kept e (die x st).
Proof. intros (Hcfg & Hone & Hlead & Hcalls). by repeat split; try apply Hcfg. Qed.

Lemma kept_demand ws st : kept e st -> kept e (demand ws st).
Proof.
  intros H. unfold demand. destruct (watch_index ws) as [x|index].
  - by apply kept_die.
  - apply kept_block; [done|]. cbn. apply H.
Qed.

Lemma kept_loop st : kept e st -> run_invariant e (loop st).
Proof.
  intros H. unfold loop. destruct (is_leader (self st)) eqn:Hl.
  - split; [|discriminate]. apply kept_block; [done|]. cbn. apply H.
  - split; [by apply kept_demand|]. intros _. by rewrite demand_self.
Qed.

Lemma kept_set_leader (value : bool) st : kept e st -> kept e (_set_leader value st).
Proof.
  intros (Hcfg & Hone & Hlead & Hcalls).
  pose proof (disarmed_nil st Hone) as Hdis.
  destruct st as [s p ts n cs lg]; cbn in *.
  destruct value; [rewrite set_leader_true|rewrite set_leader_false]; rewrite Hdis.
  - split; [exact Hcfg|]. split; [|split; [discriminate|exact Hcalls]].
    right. by exists n.
  - split; [exact Hcfg|]. split; [by left|]. split; [discriminate|exact Hcalls].
Qed.

Lemma kept_fire t st :
  kept e st ->
  existsb (fun x => Nat.eqb (fst x) t) (timers st) = true ->
  run_invariant e (_on_watchdog (with_timers (cancel t (timers st)) st))
  /\ timers (_on_watchdog (with_timers (cancel t (timers st)) st)) = [].
Proof.
  intros (Hcfg & Hone & Hlead & Hcalls) Ht.
  assert (Hnil : cancel t (timers st) = []).
  { destruct Hone as [H|(t' & H & _)]; rewrite H in *; [discriminate|].
    cbn in Ht. rewrite orb_false_r in Ht. apply Nat.eqb_eq in Ht as <-.
    apply cancel_only. }
  rewrite Hnil. destruct st as [s p ts n cs lg]; cbn in *.
  split; [|reflexivity]. split; [|done].
  split; [exact Hcfg|]. split; [by left|]. split; [discriminate|exact Hcalls].
Qed.

Lemma write_call_own (s : election) (old : pyval) :
  same_config e s -> old = PyBool false \/ old = PyStr (identifier s) ->
  own_call e (_write_call s old).
Proof.
  intros (Hp & _ & Ht & _ & Hi) Hold. unfold _write_call; cbn.
  rewrite Hp, Ht, Hi. rewrite Hi in Hold. by repeat split.
Qed.

Lemma step_kept st ev st' : kept e st -> step st ev = Some st' -> kept e st'.
Proof.
  intros Hk Hstep. unfold step in Hstep. destruct ev as [| |r|t].
  - destruct (pc st) eqn:Hpc; injection Hstep as <-; try done;
      (apply kept_block; [done|]; apply write_call_own; [apply Hk|by left]).
  - destruct (pc st) eqn:Hpc; try discriminate. injection Hstep as <-.
    apply kept_block; [done|]. apply write_call_own; [apply Hk|by right].
  - destruct (pc st) eqn:Hpc; try discriminate; injection Hstep as <-.
    + unfold after_initial_write. destruct (_write_result r) as [x|[|]].
      * by apply kept_die.
      * by apply kept_loop, kept_set_leader.
      * by apply kept_loop.
    + unfold after_renew_write. destruct (_write_result r) as [x|success].
      * by apply kept_die.
      * by apply kept_loop, kept_set_leader.
    + unfold after_watch_get. destruct r as [x|event]; [by apply kept_die|].
      destruct (action_not_free event) as [x|[|]].
      * by apply kept_die.
      * by apply kept_demand.
      * apply kept_block; [done|]. apply write_call_own; [apply Hk|by left].
    + unfold after_acquire_write. destruct (_write_result r) as [x|[|]].
      * by apply kept_die.
      * by apply kept_loop, kept_set_leader.
      * by apply kept_demand.
  - destruct (existsb _ (timers st)) eqn:Ht; [|discriminate]. injection Hstep as <-.
    by apply kept_fire.
Qed.

Lemma run_keeps_kept evs : forall st st',
  kept e st -> run_events st evs = Some st' -> kept e st'.
Proof.
  induction evs as [|ev evs IH]; intros st st' Hst Hrun; cbn in Hrun.
  - by injection Hrun as <-.
  - destruct (step st ev) as [st1|] eqn:Hstep; [|discriminate].
    eapply IH; [|exact Hrun]. by eapply step_kept.
Qed.

(** Unless the step is [run()] on a task that has ended, which starts a new
    task whatever [is_leader] is, the task is not leader where it has not
    acquired the lock. *)
Lemma step_invariant st ev st' :
  run_invariant e st ->
  (ev = Run -> forall x, pc st <> Dead x) ->
  step st ev = Some st' -> run_invariant e st'.
Proof.
  intros [Hk Hfol] Hrun Hstep.
  split; [by eapply step_kept|].
  unfold step in Hstep. destruct ev as [| |r|t].
  - destruct (pc st) eqn:Hpc; injection Hstep as <-;
      try (by rewrite Hpc); try (intros _; by apply Hfol).
    by destruct (Hrun eq_refl e0).
  - destruct (pc st) eqn:Hpc; try discriminate. by injection Hstep as <-.
  - destruct (pc st) eqn:Hpc; try discriminate; injection Hstep as <-.
    + unfold after_initial_write. destruct (_write_result r) as [x|[|]].
      * discriminate.
      * by apply kept_loop, kept_set_leader.
      * by apply kept_loop.
    + unfold after_renew_write. destruct (_write_result r) as [x|success].
      * discriminate.
      * by apply kept_loop, kept_set_leader.
    + assert (Hl : is_leader (self st) = false) by (by apply Hfol).
      unfold after_watch_get. destruct r as [x|event]; [discriminate|].
      destruct (action_not_free event) as [x|[|]]; [discriminate| |done].
      intros _. by rewrite demand_self.
    + assert (Hl : is_leader (self st) = false) by (by apply Hfol).
      unfold after_acquire_write. destruct (_write_result r) as [x|[|]].
      * discriminate.
      * by apply kept_loop, kept_set_leader.
      * intros _. by rewrite demand_self.
  - destruct (existsb _ (timers st)) eqn:Ht; [|discriminate]. injection Hstep as <-.
    by apply kept_fire.
Qed.

Lemma run_keeps_invariant evs : forall st st',
  Forall (fun ev => ev <> Run) evs ->
  run_invariant e st -> run_events st evs = Some st' -> run_invariant e st'.
Proof.
  induction evs as [|ev evs IH]; intros st st' Hevs Hst Hrun; cbn in Hrun.
  - by injection Hrun as <-.
  - destruct (step st ev) as [st1|] eqn:Hstep; [|discriminate].
    inversion Hevs as [|? ? Hev Hevs']; subst.
    eapply IH; [exact Hevs'| |exact Hrun].
    eapply step_invariant; [exact Hst| |exact Hstep]. intros ->. done.
Qed.

End Kept.

Lemma new_election_invariant path servers ttl interval identifier uuid4 :
  let e := __init__ path servers ttl interval identifier uuid4 in
  run_invariant e (start e).
Proof.
  cbv zeta. split; [|done]. split; [apply same_config_refl|].
  split; [by left|]. split; [discriminate|constructor].
Qed.

Section Runs.

Variables (path : string) (servers : option (list string)) (ttl interval : option Z)
          (identifier : option string) (uuid4 : string).

Let e : election := __init__ path servers ttl interval identifier uuid4.

(** X12.  In every run of a new election, the election object keeps its
    path, servers, lease, interval and identifier, and every call the task
    has made is its own: a write of its identifier to its path with its
    lease, conditional on the key being absent or holding that identifier
    (never a delete, never unconditional), a read of its path, or a sleep of
    its interval. *)
Theorem election_only_makes_its_own_calls (evs : list event) (st : state) :
  run_events (start e) evs = Some st ->
  same_config e (self st)
  /\ forall c, In c (calls st) ->
       match c with
       | CallSet p value prev_value lease =>
           p = Election.path e /\ value = PyStr (Election.identifier e)
           /\ lease = PyInt (Election.ttl e)
           /\ (prev_value = PyBool false \/ prev_value = PyStr (Election.identifier e))
       | CallGet p _ => p = Election.path e
       | CallSleep seconds => seconds = Election.interval e
       end.
Proof.
  intros Hrun.
  destruct (run_keeps_kept e evs _ _
              (proj1 (new_election_invariant path servers ttl interval identifier uuid4))
              Hrun)
    as (Hcfg & _ & _ & Hcalls).
  split; [exact Hcfg|]. intros c Hc.
  rewrite Forall_forall in Hcalls. apply Hcalls. by apply list_elem_of_In.
Qed.


(** X14.  In every run of a new election in which [run()] is called once,
    at the start, so that the election has one task: [is_leader] is [False]
    while the task has not acquired the lock, that is during its first
    write, in the watch, and in the write that follows a freed lock.  (A
    [run()] after the task has ended starts a new task whatever [is_leader]
    is: see [run_after_the_task_ended].) *)
Theorem election_follower_is_not_leader (evs : list event) (st : state) :
  Forall (fun ev => ev <> Run) evs ->
  run_events (start e) (Run :: evs) = Some st ->
  follower_position (pc st) = true ->
  is_leader (self st) = false.
Proof.
  intros Hevs Hrun. cbn [run_events] in Hrun.
  destruct (step (start e) Run) as [st1|] eqn:Hstep; [|discriminate].
  assert (H1 : run_invariant e st1).
  { apply (step_invariant e (start e) Run st1);
      [apply new_election_invariant|intros _ x; discriminate|exact Hstep]. }
  by destruct (run_keeps_invariant e evs _ _ Hevs H1 Hrun).
Qed.

(** X15.  The first [run()] writes at once, before any watch: when that
    write returns, the election is leader with the watchdog armed and the
    task sleeps, having read nothing; when it ends in [EtcdException], the
    task starts the watch with a read that does not wait. *)
Theorem first_run_tries_to_acquire_at_once
    (response : gmap string json) :
  let acquire := _write_call e (PyBool false) in
  run_events (start e) [Run] 
  = Some {| self := e; pc := InitialWrite; timers := []; spawned := 0%nat;
            calls := [acquire]; log := [] |}
  /\ run_events (start e) [Run; Done (inr response)]
     = Some {| self := set_watchdog (Some 0%nat) (set_is_leader true e);
               pc := Sleeping; timers := [(0%nat, Election.ttl e)]; spawned := 1%nat;
               calls := [acquire; CallSleep (Election.interval e)]; log := [] |}
  /\ run_events (start e) [Run; Done (inl (EtcdException response))]
     = Some {| self := e; pc := WatchGet (WaitBool false); timers := []; spawned := 0%nat;
               calls := [acquire; CallGet (Election.path e) (WaitBool false)];
               log := [] |}.
Proof. by repeat split. Qed.

End Runs.

Lemma election_only_makes_its_own_calls_witness :
  let e := __init__ "lock" None None None (Some "me") "6f1c" in
  let st := {| self := set_watchdog (Some 0%nat) (set_is_leader true e);
               pc := RenewWrite; timers := [(0%nat, 15)]; spawned := 1%nat;
               calls := [_write_call e (PyBool false); CallSleep 5;
                         _write_call e (PyStr "me")];
               log := [] |} in
  same_config e (self st)
  /\ forall c, In c (calls st) ->
       match c with
       | CallSet p value prev_value lease =>
           p = path e /\ value = PyStr (identifier e) /\ lease = PyInt (ttl e)
           /\ (prev_value = PyBool false \/ prev_value = PyStr (identifier e))
       | CallGet p _ => p = path e
       | CallSleep seconds => seconds = interval e
       end.
Proof.
  intros e st.
  apply (election_only_makes_its_own_calls "lock" None None None (Some "me") "6f1c"
           [Run; Done (inr ∅); Wake] st).
  reflexivity.
Defined.


Lemma election_follower_is_not_leader_witness :
  let e := __init__ "lock" None None None (Some "me") "6f1c" in
  is_leader
    (self {| self := e; pc := WatchGet (WaitBool false); timers := []; spawned := 0%nat;
             calls := [_write_call e (PyBool false); CallGet "lock" (WaitBool false)];
             log := [] |}) = false.
Proof.
  intros e.
  apply (election_follower_is_not_leader "lock" None None None (Some "me") "6f1c"
           [Done (inl (EtcdException ∅))]).
  - repeat constructor; discriminate.
  - reflexivity.
  - reflexivity.
Defined.

(** ** The end of the task *)

(** X16.  A write that the first server answers with an HTTP error status
    makes [_write] raise [HTTPError], whatever the body (also the body of a
    failed compare-and-swap): it does not return [False].  The task, in any
    of its three writes, then ends with that exception; [is_leader], the
    timers and the calls stay as they were. *)
Theorem write_http_error_ends_the_task
    (e : election) (old : pyval) (server : string) (others : list string)
    (status : Z) (body : option (gmap string json)) rs ds tr (st : state) :
  servers e = server :: others ->
  400 <= status < 600 ->
  pc st = InitialWrite \/ pc st = RenewWrite \/ (exists event, pc st = AcquireWrite event) ->
  fst (_write e old {| replies := Response status body :: rs; draws := ds; trace := tr |})
  = Raise (HTTPError status)
  /\ step st (Done (inl (HTTPError status)))
     = Some {| self := self st; pc := Dead (HTTPError status); timers := timers st;
               spawned := spawned st; calls := calls st; log := log st |}.
Proof.
  intros Hservers Hstatus Hpc. split.
  - unfold _write. rewrite Hservers, set_is_request by (by left).
    rewrite request_first_server, handle_response_http_error by done. reflexivity.
  - unfold step. destruct Hpc as [->|[->|[event ->]]]; reflexivity.
Qed.

Lemma write_http_error_ends_the_task_witness :
  let e := __init__ "lock" None None None (Some "me") "6f1c" in
  let st := {| self := e; pc := InitialWrite; timers := []; spawned := 0%nat;
               calls := [_write_call e (PyBool false)]; log := [] |} in
  fst (_write e (PyBool false)
         {| replies := Response 412 (Some compare_failed) :: []; draws := []; trace := [] |})
  = Raise (HTTPError 412)
  /\ step st (Done (inl (HTTPError 412)))
     = Some {| self := self st; pc := Dead (HTTPError 412); timers := timers st;
               spawned := spawned st; calls := calls st; log := log st |}.
Proof.
  intros e st.
  apply (write_http_error_ends_the_task e (PyBool false) "http://localhost:4001" []
           412 (Some compare_failed) [] [] [] st).
  - reflexivity.
  - lia.
  - left; reflexivity.
Defined.

(** Without a new [run()], a task that has ended stays ended. *)
Lemma ended_stays_ended (x : exn) (evs : list event) : forall st st',
  pc st = Dead x ->
  Forall (fun ev => ev <> Run) evs ->
  run_events st evs = Some st' ->
  pc st' = Dead x
  /\ calls st' = calls st
  /\ same_config (self st) (self st')
  /\ (is_leader (self st') = true -> is_leader (self st) = true).
Proof.
  induction evs as [|ev evs IH]; intros st st' Hpc Hevs Hrun; cbn in Hrun.
  - injection Hrun as <-. split; [done|]. split; [done|].
    split; [apply same_config_refl|done].
  - destruct (step st ev) as [st1|] eqn:Hstep; [|discriminate].
    inversion Hevs as [|? ? Hev Hevs']; subst.
    unfold step in Hstep. rewrite Hpc in Hstep.
    destruct ev as [| |r|t]; try discriminate; [done|].
    destruct (existsb _ (timers st)); [|discriminate]. injection Hstep as <-.
    destruct (IH (_on_watchdog (with_timers (cancel t (timers st)) st)) st' Hpc Hevs' Hrun)
      as (H1 & H2 & H3 & H4).
    split; [done|]. split; [exact H2|]. split; [exact H3|].
    intros Hl. apply H4 in Hl. discriminate.
Qed.

(** X17.  In an election with one task: once an exception has left
    [_run], and as long as [run()] is not called again, the task stays ended
    through any events: no further call is made, the configuration stays,
    and [is_leader] never becomes [True] again (only the watchdog can still
    change it, to [False]). *)
Theorem ended_task_stays_ended_until_run
    (st st' : state) (x : exn) (evs : list event) :
  pc st = Dead x ->
  Forall (fun ev => ev <> Run) evs ->
  run_events st evs = Some st' ->
  pc st' = Dead x
  /\ calls st' = calls st
  /\ same_config (self st) (self st')
  /\ (is_leader (self st') = true -> is_leader (self st) = true).
Proof. apply ended_stays_ended. Qed.

Lemma ended_task_stays_ended_until_run_witness :
  let e := set_watchdog (Some 0%nat)
             (set_is_leader true (__init__ "lock" None None None (Some "me") "6f1c")) in
  let st := {| self := e; pc := Dead (HTTPError 412); timers := [(0%nat, 15)];
               spawned := 1%nat; calls := []; log := [] |} in
  let st' := _on_watchdog (with_timers [] st) in
  pc st' = Dead (HTTPError 412)
  /\ calls st' = calls st
  /\ same_config (self st) (self st')
  /\ (is_leader (self st') = true -> is_leader (self st) = true).
Proof.
  intros e st st'.
  apply (ended_task_stays_ended_until_run st st' (HTTPError 412) [Fire 0%nat]).
  - reflexivity.
  - repeat constructor; discriminate.
  - reflexivity.
Defined.

(** ** [run], and the watchdog during the sleep *)

(** X18.  [run()] on an election whose task has ended starts a new task,
    which makes the first write of [_run] again, whatever [is_leader] is;
    [run()] while that task is alive changes nothing.  If [is_leader] is
    still [True] (the task ended as leader and the watchdog has not fired)
    and the write ends in [EtcdException], the new task goes on as a leader:
    it sleeps, to renew, and does not watch; if [is_leader] is [False] it
    starts the watch. *)
Theorem run_after_the_task_ended
    (e0 : election) (leader : bool) (x : exn) (ts : list (nat * Z)) (n : nat)
    (cs : list call) (lg : list string) (response : gmap string json) :
  let e := set_is_leader leader e0 in
  let acquire := CallSet (path e0) (PyStr (identifier e0)) (PyBool false) (PyInt (ttl e0)) in
  let ended :=
    {| self := e; pc := Dead x; timers := ts; spawned := n; calls := cs; log := lg |} in
  let restarted :=
    {| self := e; pc := InitialWrite; timers := ts; spawned := n;
       calls := cs ++ [acquire]; log := lg |} in
  step ended Run = Some restarted
  /\ step restarted Run = Some restarted
  /\ step restarted (Done (inl (EtcdException response)))
     = Some {| self := e;
               pc := if leader then Sleeping else WatchGet (WaitBool false);
               timers := ts; spawned := n;
               calls := cs ++ [acquire;
                               if leader then CallSleep (interval e0)
                               else CallGet (path e0) (WaitBool false)];
               log := lg |}.
Proof.
  cbv zeta. split; [reflexivity|]. split; [reflexivity|].
  unfold step; cbn [pc]. unfold after_initial_write; cbn [_write_result].
  destruct leader.
  - rewrite loop_leader by reflexivity. cbn. by rewrite <- app_assoc.
  - rewrite loop_follower by reflexivity. cbn. by rewrite <- app_assoc.
Qed.

(** X19.  When the watchdog fires while the leader sleeps, [is_leader] is
    [False], yet the task still renews when the sleep ends; a renewal that
    returns makes the election leader again, with a new timer armed for
    [ttl] seconds and the only one. *)
Theorem renewal_after_watchdog_fired_during_sleep
    (e0 : election) (t n : nat) (cs : list call) (lg : list string)
    (response : gmap string json) :
  let e := set_watchdog (Some t) (set_is_leader true e0) in
  let sleeping :=
    {| self := e; pc := Sleeping; timers := [(t, ttl e0)]; spawned := n;
       calls := cs; log := lg |} in
  let renew := CallSet (path e0) (PyStr (identifier e0)) (PyStr (identifier e0))
                 (PyInt (ttl e0)) in
  let warned := (lg ++ ["Setting is_leader false after {} seconds - is something preventing renewal?"])%list in
  run_events sleeping [Fire t; Wake]
  = Some {| self := set_is_leader false e; pc := RenewWrite; timers := []; spawned := n;
            calls := cs ++ [renew]; log := warned |}
  /\ run_events sleeping [Fire t; Wake; Done (inr response)]
     = Some {| self := set_watchdog (Some n) (set_is_leader true e0);
               pc := Sleeping; timers := [(n, ttl e0)]; spawned := S n;
               calls := cs ++ [renew; CallSleep (interval e0)]; log := warned |}.
Proof.
  cbv zeta.
  assert (Hfire :
    step {| self := set_watchdog (Some t) (set_is_leader true e0); pc := Sleeping;
            timers := [(t, ttl e0)]; spawned := n; calls := cs; log := lg |} (Fire t)
    = Some {| self := set_is_leader false (set_watchdog (Some t) (set_is_leader true e0));
              pc := Sleeping; timers := []; spawned := n; calls := cs;
              log := lg ++ ["Setting is_leader false after {} seconds - is something preventing renewal?"] |}).
  { unfold step; cbn [timers existsb fst]. rewrite Nat.eqb_refl; cbn [orb].
    by rewrite cancel_only. }
  cbn [run_events]. rewrite Hfire. split; [reflexivity|].
  cbn. unfold block, with_self, _write_call; cbn. by rewrite <- app_assoc.
Qed.

(* ===================================================================== *)
(** * Several tasks of one election *)
(* ===================================================================== *)

Lemma with_pc_self st : with_pc (pc st) st = st.
Proof. by destruct st. Qed.

Lemma sys_run_app s evs evs' :
  sys_run s (evs ++ evs')
  = match sys_run s evs with
    | Some s' => sys_run s' evs'
    | None => None
    end.
Proof.
  revert s; induction evs as [|ev evs IH]; intros s; cbn; [done|].
  destruct (sys_step s ev); [apply IH|done].
Qed.

(** A step of the task never leads back to the position before its start. *)
Lemma demand_started ws st : pc (demand ws st) <> NotStarted.
Proof. unfold demand. by destruct (watch_index ws). Qed.

Lemma loop_started st : pc (loop st) <> NotStarted.
Proof. unfold loop. destruct (is_leader (self st)); [done|apply demand_started]. Qed.

Lemma step_started st ev st' :
  step st ev = Some st' -> pc st <> NotStarted -> pc st' <> NotStarted.
Proof.
  unfold step. intros Hstep Hpc. destruct ev as [| |r|t].
  - destruct (pc st) eqn:E; injection Hstep as <-; rewrite ?E; done.
  - destruct (pc st); try discriminate. by injection Hstep as <-.
  - destruct (pc st); try discriminate; injection Hstep as <-.
    + unfold after_initial_write.
      destruct (_write_result r) as [x|[|]]; [done|apply loop_started..].
    + unfold after_renew_write.
      destruct (_write_result r) as [x|success]; [done|apply loop_started].
    + unfold after_watch_get. destruct r as [x|event]; [done|].
      destruct (action_not_free event) as [x|[|]]; [done|apply demand_started|done].
    + unfold after_acquire_write.
      destruct (_write_result r) as [x|[|]]; [done|apply loop_started|apply demand_started].
  - destruct (existsb _ (timers st)); [|discriminate]. by injection Hstep as <-.
Qed.

(** The timer's callback does not look at the position of a task. *)
Lemma step_fire_with_pc p st t :
  step (with_pc p st) (Fire t) = with_pc p <$> step st (Fire t).
Proof. unfold step; cbn. by destruct (existsb _ (timers st)). Qed.

(** X25.  The election with one task is the system whose caller yields to
    the hub after [run()].  When [st] is the system [s] seen as an election
    with one task, a step of [st] is the run of [s] over the events it
    stands for ([run()] and then the start of the task it spawned, if it
    spawned one; the task's own step; the timer), and it leads to a state
    that is again the system seen so; and an event that cannot happen in
    [st] cannot happen in [s]. *)
Theorem one_task_election_is_the_system_that_yields_after_run
    (s : system) (st : state) (ev : event) :
  one_task s st ->
  match step st ev with
  | Some st' => exists s', sys_run s (as_sys_events s ev) = Some s' /\ one_task s' st'
  | None => sys_run s (as_sys_events s ev) = None
  end.
Proof.
  intros [Hsh Hr].
  destruct ev as [| |r|t].
  - (* run() *)
    unfold as_sys_events, not_runner.
    destruct (_runner s) as [i|] eqn:Hrun.
    + destruct Hr as (Hi & Hstarted & Hothers). rewrite Hi.
      destruct (active (pc st)) eqn:Hact; cbn [negb].
      * (* the task is alive *)
        assert (Hstep : step st Run = Some st).
        { unfold step. by destruct (pc st). }
        rewrite Hstep. exists s. split.
        -- cbn. unfold run, not_runner. by rewrite Hrun, Hi, Hact.
        -- split; [done|]. by rewrite Hrun.
      * (* the task has ended *)
        assert (Hdead : exists x, pc st = Dead x).
        { destruct (pc st); try done. by eexists. }
        destruct Hdead as [x Hx].
        assert (Hstep : step st Run
                        = Some (block InitialWrite (_write_call (self st) (PyBool false)) st)).
        { unfold step. by rewrite Hx. }
        rewrite Hstep. eexists. split.
        -- cbn [sys_run sys_step]. unfold run, not_runner. rewrite Hrun, Hi, Hact.
           cbn [negb tasks shared _runner].
           rewrite lookup_app_r, Nat.sub_diag by done. cbn [lookup list_lookup].
           unfold task_step. cbn [tasks shared _runner].
           rewrite lookup_app_r, Nat.sub_diag by done. cbn [lookup list_lookup].
           reflexivity.
        -- cbn [step pc with_pc]. split.
           ++ cbn. rewrite <- Hsh. reflexivity.
           ++ cbn [_runner tasks pc block].
              rewrite insert_app_r_alt, Nat.sub_diag by done. cbn [insert list_insert].
              split; [by rewrite lookup_app_r, Nat.sub_diag|]. split; [done|].
              intros j p Hj Hp.
              assert (Hlt : (j < length (tasks s))%nat).
              { apply lookup_lt_Some in Hp. rewrite length_app in Hp. cbn in Hp. lia. }
              rewrite lookup_app_l in Hp by done.
              destruct (decide (j = i)) as [->|Hji].
              ** rewrite Hi in Hp. injection Hp as <-. by exists x.
              ** by apply (Hothers j).
    + destruct Hr as [Hnil Hpc].
      assert (Hstep : step st Run
                      = Some (block InitialWrite (_write_call (self st) (PyBool false)) st)).
      { unfold step. by rewrite Hpc. }
      rewrite Hstep. eexists. split.
      * cbn [sys_run sys_step]. unfold run, not_runner. rewrite Hrun, Hnil.
        cbn [tasks shared _runner app length lookup list_lookup].
        unfold task_step. cbn [tasks shared _runner lookup list_lookup].
        reflexivity.
      * rewrite Hpc in Hsh. split.
        -- cbn. rewrite <- Hsh. reflexivity.
        -- cbn. split; [done|]. split; [done|].
           intros [|j] p Hj Hp; [done|]. discriminate.
  - (* the sleep returns *)
    unfold as_sys_events. cbn [sys_run sys_step]. unfold task_step.
    destruct (_runner s) as [i|] eqn:Hrun; cbn [from_option id].
    + destruct Hr as (Hi & Hstarted & Hothers). rewrite Hi, Hsh.
      destruct (step st Wake) as [st'|] eqn:Hstep; [|done].
      eexists. split; [reflexivity|]. split.
      * cbn. by destruct st'.
      * cbn [_runner tasks].
        split; [apply list_lookup_insert_eq; by eapply lookup_lt_Some|].
        split; [by eapply step_started|].
        intros j p Hj Hp. rewrite list_lookup_insert_ne in Hp by done.
        by apply (Hothers j).
    + destruct Hr as [Hnil Hpc]. rewrite Hnil. cbn.
      unfold step. by rewrite Hpc.
  - (* the store call ends *)
    unfold as_sys_events. cbn [sys_run sys_step]. unfold task_step.
    destruct (_runner s) as [i|] eqn:Hrun; cbn [from_option id].
    + destruct Hr as (Hi & Hstarted & Hothers). rewrite Hi, Hsh.
      destruct (step st (Done r)) as [st'|] eqn:Hstep; [|done].
      eexists. split; [reflexivity|]. split.
      * cbn. by destruct st'.
      * cbn [_runner tasks].
        split; [apply list_lookup_insert_eq; by eapply lookup_lt_Some|].
        split; [by eapply step_started|].
        intros j p Hj Hp. rewrite list_lookup_insert_ne in Hp by done.
        by apply (Hothers j).
    + destruct Hr as [Hnil Hpc]. rewrite Hnil. cbn.
      unfold step. by rewrite Hpc.
  - (* the timer *)
    unfold as_sys_events. cbn [sys_run sys_step].
    pose proof (step_fire_with_pc (pc st) (shared s) t) as Hf.
    rewrite Hsh in Hf. rewrite Hf.
    destruct (step (shared s) (Fire t)) as [st1|] eqn:Hstep; cbn [fmap option_fmap option_map];
      [|done].
    eexists. split; [reflexivity|]. split; [reflexivity|].
    cbn [_runner tasks pc with_pc]. exact Hr.
Qed.

Lemma one_task_election_is_the_system_that_yields_after_run_witness :
  let e := __init__ "lock" None None None (Some "me") "6f1c" in
  exists s',
    sys_run (new_system e) [CallRun; Start 0%nat] = Some s'
    /\ one_task s' {| self := e; pc := InitialWrite; timers := []; spawned := 0%nat;
                      calls := [_write_call e (PyBool false)]; log := [] |}.
Proof.
  intros e.
  apply (one_task_election_is_the_system_that_yields_after_run (new_system e) (start e) Run).
  split; [reflexivity|]. split; reflexivity.
Defined.

(** ** What every run of the system keeps *)





(** ** [run()] before the task has started *)

Lemma run_spawns_while_not_started (sh : state) (n : nat) :
  run {| shared := sh; tasks := replicate n NotStarted;
         _runner := match n with O => None | S m => Some m end |}
  = {| shared := sh; tasks := replicate (S n) NotStarted; _runner := Some n |}.
Proof.
  unfold run, not_runner; cbn [_runner tasks shared].
  destruct n as [|m]; [reflexivity|].
  rewrite lookup_replicate_2 by lia. cbn [active negb].
  by rewrite length_replicate, <- replicate_S_end.
Qed.

Lemma runs_spawn_while_not_started (sh : state) (k : nat) : forall n,
  sys_run {| shared := sh; tasks := replicate n NotStarted;
             _runner := match n with O => None | S m => Some m end |}
    (replicate k CallRun)
  = Some {| shared := sh; tasks := replicate (n + k) NotStarted;
            _runner := match (n + k)%nat with O => None | S m => Some m end |}.
Proof.
  induction k as [|k IH]; intros n; cbn [replicate sys_run sys_step].
  - by rewrite Nat.add_0_r.
  - rewrite run_spawns_while_not_started, (IH (S n)). by rewrite Nat.add_succ_r.
Qed.

Lemma starts_make_the_first_write (e : election) (p0 : pc_t) ts n lg r (j : nat) :
  forall (i : nat) (cs : list call),
  sys_run {| shared := {| self := e; pc := p0; timers := ts; spawned := n;
                          calls := cs; log := lg |};
             tasks := replicate i InitialWrite ++ replicate j NotStarted;
             _runner := r |}
    (Start <$> seq i j)
  = Some {| shared := {| self := e; pc := p0; timers := ts; spawned := n;
                         calls := cs ++ replicate j (_write_call e (PyBool false));
                         log := lg |};
            tasks := replicate (i + j) InitialWrite;
            _runner := r |}.
Proof.
  induction j as [|j IH]; intros i cs.
  - cbn. by rewrite !app_nil_r, Nat.add_0_r.
  - cbn [seq fmap list_fmap sys_run sys_step tasks].
    rewrite lookup_app_r by (by rewrite length_replicate).
    rewrite length_replicate, Nat.sub_diag. cbn [replicate lookup list_lookup].
    unfold task_step; cbn [tasks shared _runner].
    rewrite lookup_app_r by (by rewrite length_replicate).
    rewrite length_replicate, Nat.sub_diag. cbn [lookup list_lookup].
    cbn [step with_pc pc self timers spawned calls log block].
    rewrite insert_app_r_alt by (by rewrite length_replicate).
    rewrite length_replicate, Nat.sub_diag. cbn [insert list_insert].
    rewrite (cons_middle InitialWrite), app_assoc, <- replicate_S_end.
    change (list_fmap nat sys_event Start (seq (S i) j)) with (Start <$> seq (S i) j).
    unfold with_pc, block; cbn [self pc timers spawned calls log].
    rewrite (IH (S i)). by rewrite <- app_assoc, Nat.add_succ_r.
Qed.

Lemma run_does_nothing_while_alive (s : system) (k : nat) :
  not_runner s = false -> sys_run s (replicate k CallRun) = Some s.
Proof.
  intros H. induction k as [|k IH]; [done|].
  cbn [replicate sys_run sys_step]. unfold run. by rewrite H.
Qed.

(** X27.  [run()] called again before the caller has yielded spawns a task
    each time, since a green thread that has not started is false in
    [not self._runner]: after [k+1] calls there are [k+1] tasks, [_runner]
    names the last, and each of them, once started, makes the first write of
    [_run].  Once the task has started, further calls of [run()] spawn
    nothing. *)
Theorem run_again_before_the_task_starts_spawns_another (e : election) (k : nat) :
  let acquire := _write_call e (PyBool false) in
  sys_run (new_system e) (replicate (S k) CallRun)
  = Some {| shared := start e; tasks := replicate (S k) NotStarted; _runner := Some k |}
  /\ sys_run (new_system e) (replicate (S k) CallRun ++ (Start <$> seq 0 (S k)))
     = Some {| shared := {| self := e; pc := NotStarted; timers := []; spawned := 0%nat;
                            calls := replicate (S k) acquire; log := [] |};
               tasks := replicate (S k) InitialWrite;
               _runner := Some k |}
  /\ sys_run (new_system e) ([CallRun; Start 0%nat] ++ replicate k CallRun)
     = Some {| shared := {| self := e; pc := NotStarted; timers := []; spawned := 0%nat;
                            calls := [acquire]; log := [] |};
               tasks := [InitialWrite];
               _runner := Some 0%nat |}.
Proof.
  cbv zeta.
  pose proof (runs_spawn_while_not_started (start e) (S k) 0) as Hspawn.
  cbn [Nat.add replicate] in Hspawn. cbn [replicate].
  split; [exact Hspawn|]. split.
  - rewrite sys_run_app. unfold new_system. rewrite Hspawn.
    exact (starts_make_the_first_write e NotStarted [] 0%nat [] (Some k) (S k) 0%nat []).
  - rewrite sys_run_app. cbn [sys_run sys_step run not_runner new_system _runner tasks
                               shared app length lookup list_lookup].
    by apply run_does_nothing_while_alive.
Qed.

(** X28.  Two tasks of one election share [is_leader].  When the first
    write of one returns and that of the other ends in [EtcdException], the
    second does not watch: it finds [is_leader] [True] and sleeps, as the
    first does, and both renew when their sleeps end; one timer stays
    armed, the one of the last write that returned. *)
Theorem second_task_goes_by_the_shared_is_leader
    (path : string) (servers : option (list string)) (ttl interval : option Z)
    (identifier : option string) (uuid4 : string)
    (response response' response'' : gmap string json) :
  let e := __init__ path servers ttl interval identifier uuid4 in
  let acquire := _write_call e (PyBool false) in
  let renew := _write_call e (PyStr (Election.identifier e)) in
  let sleep := CallSleep (Election.interval e) in
  let two := [CallRun; CallRun; Start 0%nat; Start 1%nat;
              TaskDone 0%nat (inr response);
              TaskDone 1%nat (inl (EtcdException response'))] in
  sys_run (new_system e) two
  = Some {| shared := {| self := set_watchdog (Some 0%nat) (set_is_leader true e);
                         pc := NotStarted; timers := [(0%nat, Election.ttl e)];
                         spawned := 1%nat;
                         calls := [acquire; acquire; sleep; sleep]; log := [] |};
            tasks := [Sleeping; Sleeping];
            _runner := Some 1%nat |}
  /\ sys_run (new_system e)
       (two ++ [TaskWake 0%nat; TaskWake 1%nat; TaskDone 1%nat (inr response'')])
     = Some {| shared := {| self := set_watchdog (Some 1%nat) (set_is_leader true e);
                            pc := NotStarted; timers := [(1%nat, Election.ttl e)];
                            spawned := 2%nat;
                            calls := [acquire; acquire; sleep; sleep; renew; renew; sleep];
                            log := [] |};
               tasks := [RenewWrite; Sleeping];
               _runner := Some 1%nat |}.
Proof. cbv zeta. split; reflexivity. Qed.

(** ** What a write of the election puts on the wire *)

Lemma set_conditions_ttl (prev_value ttl : pyval) :
  set_conditions prev_value ttl !! "ttl" = (if is_none ttl then None else Some ttl).
Proof.
  unfold set_conditions.
  assert (H : (if negb (is_none ttl) then <["ttl" := ttl]> (∅ : gmap string pyval) else ∅)
                !! "ttl" = (if is_none ttl then None else Some ttl)).
  { destruct (is_none ttl); cbn [negb]; [apply lookup_empty|apply lookup_insert_eq]. }
  destruct (py_in prev_value _); [by rewrite lookup_insert_ne|].
  destruct (is_basestring prev_value); [by rewrite lookup_insert_ne|].
  destruct (negb (is_none prev_value)); [by rewrite lookup_insert_ne|done].
Qed.

(** X20.  Every write of the election is one [PUT] on its path, under
    [/v2/keys/], that carries the identifier as [value], unchanged whatever
    the string is, and the lease as [ttl]: as the number for every [ttl]
    other than 0 and 1, and as the token [false] or [true] for a [ttl] of 0
    or 1. *)
Theorem election_write_request
    (e : election) (old : pyval) (server : string) (others : list string)
    (status : Z) (body : option (gmap string json)) rs ds tr :
  servers e = server :: others ->
  exists sent,
    snd (_write e old {| replies := Response status body :: rs; draws := ds; trace := tr |})
    = {| replies := rs; draws := ds;
         trace := tr ++ [Request "PUT" (urljoin [server; "v2"; "keys"; path e])
                           (Some sent)] |}
    /\ sent !! "value" = Some (PyStr (identifier e))
    /\ sent !! "ttl"
       = Some (if (ttl e =? 1) || (ttl e =? 0)
               then PyStr (if ttl e =? 0 then "false" else "true")
               else PyInt (ttl e)).
Proof.
  intros Hservers.
  exists (lower_bool <$> <["value" := PyStr (identifier e)]>
                           (set_conditions old (PyInt (ttl e)))).
  split; [|split].
  - unfold _write. rewrite Hservers, set_is_request by (by left).
    rewrite request_first_server. cbn [is_none].
    by destruct (handle_response status body) as [r|[]|].
  - by rewrite fmap_insert, lookup_insert_eq.
  - rewrite lookup_fmap, lookup_insert_ne, set_conditions_ttl by done.
    cbn [is_none fmap option_fmap option_map]. f_equal.
    unfold lower_bool, py_in; cbn [existsb py_eq py_num py_truth].
    rewrite orb_false_r. by destruct (ttl e =? 1); destruct (ttl e =? 0).
Qed.

Lemma election_write_request_witness :
  let e := __init__ "lock" None (Some 1) None (Some "me") "6f1c" in
  exists sent,
    snd (_write e (PyBool false)
           {| replies := Response 200 (Some ∅) :: []; draws := []; trace := [] |})
    = {| replies := []; draws := [];
         trace := [] ++ [Request "PUT" (urljoin ["http://localhost:4001"; "v2"; "keys"; path e])
                           (Some sent)] |}
    /\ sent !! "value" = Some (PyStr (identifier e))
    /\ sent !! "ttl"
       = Some (if (ttl e =? 1) || (ttl e =? 0)
               then PyStr (if ttl e =? 0 then "false" else "true")
               else PyInt (ttl e)).
Proof.
  intros e.
  apply (election_write_request e (PyBool false) "http://localhost:4001" []
           200 (Some ∅) [] [] []).
  reflexivity.
Defined.

(** ** The retry delay *)

(** X21.  A larger draw of [random.random()] never gives a shorter sleep,
    and the draw 0 gives the shortest one, exactly 4 seconds. *)
Theorem retry_delay_grows_with_the_draw (random random' : B64.fx) :
  0 <= random <= random' ->
  retry_interval 0 = B64.of_Z 4
  /\ retry_interval 0 <= retry_interval random <= retry_interval random'.
Proof.
  intros [H0 H1]. split; [by vm_compute|].
  split; apply retry_interval_mono; lia.
Qed.

Lemma retry_delay_grows_with_the_draw_witness :
  retry_interval 0 = B64.of_Z 4
  /\ retry_interval 0 <= retry_interval (B64.of_random_bits 1)
     <= retry_interval (B64.of_random_bits (2 ^ 52)).
Proof.
  apply (retry_delay_grows_with_the_draw (B64.of_random_bits 1) (B64.of_random_bits (2 ^ 52))).
  vm_compute. split; discriminate.
Defined.

(** ** A body that is not JSON *)

(** X22.  When the first server that can be reached answers with a status
    that is not an HTTP error and a body that is not JSON, [request] raises
    [ValueError] at once: the servers after it see no attempt, there is no
    sleep and no retry. *)
Theorem request_body_not_json_raises_ValueError
    (before after : list string) (server method path : string) (kw : kwargs)
    (status : Z) rs ds tr :
  ~ (400 <= status < 600) ->
  request (before ++ server :: after) method path kw
    {| replies := replicate (length before) ConnectionError ++ Response status None :: rs;
       draws := ds; trace := tr |}
  = (Raise ValueError,
     {| replies := rs; draws := ds;
        trace := tr ++ map (attempt method path kw) (before ++ [server]) |}).
Proof.
  intros Hstatus. rewrite request_first_answer. unfold handle_response.
  destruct (400 <=? status) eqn:H1; destruct (status <? 600) eqn:H2; try reflexivity.
  apply Z.leb_le in H1. apply Z.ltb_lt in H2. lia.
Qed.

Lemma request_body_not_json_raises_ValueError_witness :
  request (["http://a"] ++ "http://b" :: ["http://c"]) "GET" "lock" (with_params ∅)
    {| replies := replicate (length ["http://a"]) ConnectionError
                  ++ Response 200 None :: [];
       draws := []; trace := [] |}
  = (Raise ValueError,
     {| replies := []; draws := [];
        trace := [] ++ map (attempt "GET" "lock" (with_params ∅))
                         (["http://a"] ++ ["http://b"]) |}).
Proof.
  apply (request_body_not_json_raises_ValueError
           ["http://a"] ["http://c"] "http://b" "GET" "lock" (with_params ∅) 200 [] [] []).
  lia.
Defined.

(** ** The watch of a follower, by the action of the events *)





(* ===================================================================== *)
(** * A write of the election answered with an HTTP error status *)
(* ===================================================================== *)

(** [_write] on an answer with an HTTP error status: [raise_for_status]
    raises before the body is looked at, and [_write] catches
    [EtcdException] only. *)
Lemma write_raises_on_http_error
    (e : election) (old : pyval) (server : string) (others : list string)
    (status : Z) (body : option (gmap string json)) rs ds tr :
  servers e = server :: others ->
  400 <= status < 600 ->
  _write e old {| replies := Response status body :: rs; draws := ds; trace := tr |}
  = (Raise (HTTPError status),
     {| replies := rs; draws := ds;
        trace := tr ++ [Request "PUT" (urljoin [server; "v2"; "keys"; path e])
                          (Some (lower_bool <$> <["value" := PyStr (identifier e)]>
                                   (set_conditions old (PyInt (ttl e)))))] |}).
Proof.
  intros Hservers Hstatus. unfold _write.
  rewrite Hservers, set_is_request by (by left).
  by rewrite request_first_server, handle_response_http_error.
Qed.

(** C2.  A leader renews, and the first server answers the write with an
    HTTP error status, as etcd does (412) when the value no longer equals the
    identifier.  The request carried [prevValue], the identifier.  [_write]
    raises [HTTPError] instead of returning [False]; the exception leaves
    [_run]: the task ends with [is_leader] still [True], [_set_leader(False)]
    is not called (no timer is cancelled, no warning is logged), and the
    task does not go on as a follower: without a new [run()] it makes no
    further call. *)
Theorem C2_renewal_answered_with_http_error_ends_the_task_as_leader
    (e : election) (server : string) (others : list string)
    (ts : list (nat * Z)) (n : nat) (cs : list call) (lg : list string)
    (status : Z) (body : option (gmap string json)) rs ds tr :
  servers e = server :: others ->
  is_leader e = true ->
  400 <= status < 600 ->
  let sleeping :=
    {| self := e; pc := Sleeping; timers := ts; spawned := n; calls := cs; log := lg |} in
  let renew := CallSet (path e) (PyStr (identifier e)) (PyStr (identifier e)) (PyInt (ttl e)) in
  let renewing :=
    {| self := e; pc := RenewWrite; timers := ts; spawned := n;
       calls := cs ++ [renew]; log := lg |} in
  let ended :=
    {| self := e; pc := Dead (HTTPError status); timers := ts; spawned := n;
       calls := cs ++ [renew]; log := lg |} in
  step sleeping Wake = Some renewing
  /\ (exists sent,
         _write e (PyStr (identifier e))
           {| replies := Response status body :: rs; draws := ds; trace := tr |}
         = (Raise (HTTPError status),
            {| replies := rs; draws := ds;
               trace := tr ++ [Request "PUT" (urljoin [server; "v2"; "keys"; path e])
                                 (Some sent)] |})
         /\ sent !! "prevValue" = Some (PyStr (identifier e)))
  /\ step renewing (Done (inl (HTTPError status))) = Some ended
  /\ is_leader (self ended) = true
  /\ (forall evs st',
         Forall (fun ev => ev <> Run) evs -> run_events ended evs = Some st' ->
         pc st' = Dead (HTTPError status) /\ calls st' = (cs ++ [renew])%list).
Proof.
  intros Hservers Hleader Hstatus. cbv zeta.
  split; [reflexivity|]. split.
  { eexists. split;
      [exact (write_raises_on_http_error e _ server others status body rs ds tr
                Hservers Hstatus)|].
    apply (write_if_mine_params (identifier e) (ttl e)). }
  split; [reflexivity|]. split; [exact Hleader|].
  intros evs st' Hevs Hrun.
  match type of Hrun with
  | run_events ?s _ = _ =>
      destruct (ended_stays_ended (HTTPError status) evs s st' eq_refl Hevs Hrun)
        as (Hpc & Hcalls & _)
  end.
  by split.
Qed.

Lemma C2_witness :
  let e := set_watchdog (Some 0%nat)
             (set_is_leader true (__init__ "lock" None None None (Some "me") "6f1c")) in
  let renew := CallSet "lock" (PyStr "me") (PyStr "me") (PyInt 15) in
  (exists sent,
      _write e (PyStr "me")
        {| replies := Response 412 (Some compare_failed) :: []; draws := []; trace := [] |}
      = (Raise (HTTPError 412),
         {| replies := []; draws := [];
            trace := [] ++ [Request "PUT"
                              (urljoin ["http://localhost:4001"; "v2"; "keys"; "lock"])
                              (Some sent)] |})
      /\ sent !! "prevValue" = Some (PyStr "me"))
  /\ step {| self := e; pc := RenewWrite; timers := [(0%nat, 15)]; spawned := 1%nat;
             calls := [] ++ [renew]; log := [] |} (Done (inl (HTTPError 412)))
     = Some {| self := e; pc := Dead (HTTPError 412); timers := [(0%nat, 15)];
               spawned := 1%nat; calls := [] ++ [renew]; log := [] |}
  /\ is_leader e = true.
Proof.
  intros e renew.
  destruct (C2_renewal_answered_with_http_error_ends_the_task_as_leader
              e "http://localhost:4001" [] [(0%nat, 15)] 1%nat [] []
              412 (Some compare_failed) [] [] [])
    as (_ & Hwrite & Hstep & Hleader & _).
  - reflexivity.
  - reflexivity.
  - lia.
  - split; [exact Hwrite|]. split; [exact Hstep|exact Hleader].
Defined.

(** C3.  A follower receives a ['delete'] or ['expire'] event and writes
    with [prev_value = False]; the first server answers the write with an
    HTTP error status, as etcd does (412) when another participant has taken
    the lock.  [_write] raises [HTTPError] instead of returning [False]; the
    exception leaves [_try_become_leader] and [_run]: the task ends, and the
    watch is not consumed any further (without a new [run()] the task makes
    no further call). *)
Theorem C3_acquire_answered_with_http_error_ends_the_watch
    (e : election) (server : string) (others : list string) (index : wait_arg)
    (ts : list (nat * Z)) (n : nat) (cs : list call) (lg : list string)
    (event : gmap string json)
    (status : Z) (body : option (gmap string json)) rs ds tr :
  servers e = server :: others ->
  event !! "action" = Some (JStr "delete") \/ event !! "action" = Some (JStr "expire") ->
  400 <= status < 600 ->
  let watching :=
    {| self := e; pc := WatchGet index; timers := ts; spawned := n;
       calls := cs; log := lg |} in
  let acquire := CallSet (path e) (PyStr (identifier e)) (PyBool false) (PyInt (ttl e)) in
  let acquiring :=
    {| self := e; pc := AcquireWrite event; timers := ts; spawned := n;
       calls := cs ++ [acquire]; log := lg |} in
  let ended :=
    {| self := e; pc := Dead (HTTPError status); timers := ts; spawned := n;
       calls := cs ++ [acquire]; log := lg |} in
  step watching (Done (inr event)) = Some acquiring
  /\ (exists sent,
         _write e (PyBool false)
           {| replies := Response status body :: rs; draws := ds; trace := tr |}
         = (Raise (HTTPError status),
            {| replies := rs; draws := ds;
               trace := tr ++ [Request "PUT" (urljoin [server; "v2"; "keys"; path e])
                                 (Some sent)] |})
         /\ sent !! "prevExist" = Some (PyStr "false"))
  /\ step acquiring (Done (inl (HTTPError status))) = Some ended
  /\ (forall evs st',
         Forall (fun ev => ev <> Run) evs -> run_events ended evs = Some st' ->
         pc st' = Dead (HTTPError status) /\ calls st' = (cs ++ [acquire])%list).
Proof.
  intros Hservers Hevent Hstatus. cbv zeta.
  split.
  { unfold step; cbn [pc]. unfold after_watch_get, action_not_free.
    by destruct Hevent as [->| ->]. }
  split.
  { eexists. split;
      [exact (write_raises_on_http_error e _ server others status body rs ds tr
                Hservers Hstatus)|].
    apply (write_if_absent_params (identifier e) (ttl e)). }
  split; [reflexivity|].
  intros evs st' Hevs Hrun.
  match type of Hrun with
  | run_events ?s _ = _ =>
      destruct (ended_stays_ended (HTTPError status) evs s st' eq_refl Hevs Hrun)
        as (Hpc & Hcalls & _)
  end.
  by split.
Qed.

Lemma C3_witness :
  let e := __init__ "lock" None None None (Some "me") "6f1c" in
  let deleted : gmap string json :=
    {[ "action" := JStr "delete"; "node" := JDict {[ "modifiedIndex" := JInt 9 ]} ]} in
  let acquire := CallSet "lock" (PyStr "me") (PyBool false) (PyInt 15) in
  step {| self := e; pc := WatchGet (WaitIndex 8); timers := []; spawned := 0%nat;
          calls := []; log := [] |} (Done (inr deleted))
  = Some {| self := e; pc := AcquireWrite deleted; timers := []; spawned := 0%nat;
            calls := [] ++ [acquire]; log := [] |}
  /\ step {| self := e; pc := AcquireWrite deleted; timers := []; spawned := 0%nat;
             calls := [] ++ [acquire]; log := [] |} (Done (inl (HTTPError 412)))
     = Some {| self := e; pc := Dead (HTTPError 412); timers := []; spawned := 0%nat;
               calls := [] ++ [acquire]; log := [] |}
  /\ fst (_write e (PyBool false)
            {| replies := Response 412 (Some compare_failed) :: []; draws := [];
               trace := [] |})
     = Raise (HTTPError 412).
Proof.
  intros e deleted acquire.
  destruct (C3_acquire_answered_with_http_error_ends_the_watch
              e "http://localhost:4001" [] (WaitIndex 8) [] 0%nat [] [] deleted
              412 (Some compare_failed) [] [] [])
    as (Hevent & (sent & Hwrite & _) & Hstep & _).
  - reflexivity.
  - left; reflexivity.
  - lia.
  - split; [exact Hevent|]. split; [exact Hstep|]. by rewrite Hwrite.
Defined.
